(** * SignBridge chat client: the message synchronisation logic

    A shallow embedding of the chat page ([src/pages/Chat.tsx]) and of the
    user list ([OnlineUsers.handleStartChat]) together with the hosted
    database their queries talk to, as the SQL migrations declare it.

    Conventions.
    - A JavaScript string is its sequence of UTF-16 code units.
    - Rows that come out of the database are dynamically typed where the
      source treats them so ([reactions] is a JSON value).
    - An [async] handler is cut at each [await]: the part that runs at the
      call returns the requests it issues and the continuation that is
      pending; the continuation is resumed with the backend's response.
    - Timestamps are milliseconds, as [Date] counts them. *)

From Stdlib Require Import List Bool NArith ZArith String Ascii Lia.
From Stdlib Require Import Sorted Permutation.
Import ListNotations.

(* ================================================================== *)
(** ** JavaScript values *)

Module Js.

(** Strings: sequences of UTF-16 code units. *)
Definition str := list N.

(** An ASCII literal as a JavaScript string. *)
Definition lit (s : string) : str :=
  map N_of_ascii (list_ascii_of_string s).

(** [a === b] on strings. *)
Fixpoint str_eqb (a b : str) : bool :=
  match a, b with
  | [], [] => true
  | x :: a', y :: b' => N.eqb x y && str_eqb a' b'
  | _, _ => false
  end.

(** ECMAScript WhiteSpace and LineTerminator code points, the characters
    that [String.prototype.trim] strips. *)
Definition isWhiteSpace (c : N) : bool :=
  (c =? 9)%N || (c =? 10)%N || (c =? 11)%N || (c =? 12)%N || (c =? 13)%N
  || (c =? 32)%N || (c =? 160)%N || (c =? 5760)%N
  || ((8192 <=? c)%N && (c <=? 8202)%N)
  || (c =? 8232)%N || (c =? 8233)%N || (c =? 8239)%N || (c =? 8287)%N
  || (c =? 12288)%N || (c =? 65279)%N.

Fixpoint trimStart (s : str) : str :=
  match s with
  | c :: s' => if isWhiteSpace c then trimStart s' else s
  | [] => []
  end.

Definition trimEnd (s : str) : str := rev (trimStart (rev s)).

(** [s.trim()] *)
Definition trim (s : str) : str := trimEnd (trimStart s).

(** Truthiness of a string: only the empty string is falsy. *)
Definition truthy_str (s : str) : bool :=
  match s with [] => false | _ :: _ => true end.

(** [s.substring(0, n)] *)
Definition substring0 (n : nat) (s : str) : str := firstn n s.

(** JSON values, the content of a [jsonb] column.  Numbers are kept as
    integers: the code only ever tests a number for being zero. *)
#[local] Unset Elimination Schemes.
Inductive json : Type :=
| JNull
| JBool (b : bool)
| JNum (n : Z)
| JStr (s : str)
| JArr (items : list json)
| JObj (fields : list (str * json)).
#[local] Set Elimination Schemes.

(** Truthiness of a value. *)
Definition truthy (v : json) : bool :=
  match v with
  | JNull => false
  | JBool b => b
  | JNum n => negb (Z.eqb n 0)
  | JStr s => truthy_str s
  | JArr _ | JObj _ => true
  end.

(** A computation that may throw a [TypeError]. *)
Inductive result (A : Type) : Type :=
| Ok (a : A)
| TypeError.
Arguments Ok {A} a.
Arguments TypeError {A}.

Definition bind {A B} (r : result A) (k : A -> result B) : result B :=
  match r with
  | Ok a => k a
  | TypeError => TypeError
  end.

Fixpoint lookup_field (k : str) (fields : list (str * json)) : option json :=
  match fields with
  | [] => None
  | (k', v) :: rest => if str_eqb k' k then Some v else lookup_field k rest
  end.

(** [v.k] for a property name [k] that no prototype defines: reading it
    off [null] throws, off an object it is the field or [undefined]
    ([None]), off any other value it is [undefined]. *)
Definition getProp (v : json) (k : str) : result (option json) :=
  match v with
  | JNull => TypeError
  | JObj fields => Ok (lookup_field k fields)
  | _ => Ok None
  end.

(** [x || d] where [x] may be [undefined]. *)
Definition orElse (x : option json) (d : json) : json :=
  match x with
  | Some v => if truthy v then v else d
  | None => d
  end.

(** [x === s] for a string [s]. *)
Definition strictEqStr (x : option json) (s : str) : bool :=
  match x with
  | Some (JStr t) => str_eqb t s
  | _ => false
  end.

(** [items.map(f)] where [f] may throw. *)
Fixpoint mapM {A B} (f : A -> result B) (l : list A) : result (list B) :=
  match l with
  | [] => Ok []
  | x :: l' =>
      bind (f x) (fun y => bind (mapM f l') (fun ys => Ok (y :: ys)))
  end.

(** [items.find(p)] where [p] may throw: the first element that
    satisfies [p]; elements after it are not visited. *)
Fixpoint findM {A} (p : A -> result bool) (l : list A) : result (option A) :=
  match l with
  | [] => Ok None
  | x :: l' => bind (p x) (fun b => if b then Ok (Some x) else findM p l')
  end.

(** [items.filter(p)] where [p] may throw. *)
Fixpoint filterM {A} (p : A -> result bool) (l : list A) : result (list A) :=
  match l with
  | [] => Ok []
  | x :: l' =>
      bind (p x) (fun b =>
        bind (filterM p l') (fun ys => Ok (if b then x :: ys else ys)))
  end.

End Js.

(* ================================================================== *)
(** ** The tables (supabase/migrations) *)

Module Model.
Import Js.

Definition Time := N.

(** A row of [public.messages]; the page's [Message] interface is the same
    row as the realtime feed and the initial load deliver it. *)
Record Message : Type := {
  id : str;
  conversation_id : str;
  sender_id : str;
  content : str;
  message_type : str;
  translation : option str;
  created_at : Time;
  is_read : bool;
  edited_at : option Time;
  parent_message_id : option str;
  is_pinned : bool;
  reactions : json;
  is_deleted : bool;
  deleted_at : option Time
}.

(** [{...m, content: c, edited_at: t}] *)
Definition setContent (c : str) (t : Time) (m : Message) : Message :=
  {| id := id m; conversation_id := conversation_id m;
     sender_id := sender_id m; content := c;
     message_type := message_type m; translation := translation m;
     created_at := created_at m; is_read := is_read m;
     edited_at := Some t; parent_message_id := parent_message_id m;
     is_pinned := is_pinned m; reactions := reactions m;
     is_deleted := is_deleted m; deleted_at := deleted_at m |}.

(** [{...m, is_deleted: true, deleted_at: t}] *)
Definition setDeleted (t : Time) (m : Message) : Message :=
  {| id := id m; conversation_id := conversation_id m;
     sender_id := sender_id m; content := content m;
     message_type := message_type m; translation := translation m;
     created_at := created_at m; is_read := is_read m;
     edited_at := edited_at m; parent_message_id := parent_message_id m;
     is_pinned := is_pinned m; reactions := reactions m;
     is_deleted := true; deleted_at := Some t |}.

(** [{...m, is_pinned: b}] *)
Definition setPinned (b : bool) (m : Message) : Message :=
  {| id := id m; conversation_id := conversation_id m;
     sender_id := sender_id m; content := content m;
     message_type := message_type m; translation := translation m;
     created_at := created_at m; is_read := is_read m;
     edited_at := edited_at m; parent_message_id := parent_message_id m;
     is_pinned := b; reactions := reactions m;
     is_deleted := is_deleted m; deleted_at := deleted_at m |}.

(** [{...m, reactions: r}] *)
Definition setReactions (r : json) (m : Message) : Message :=
  {| id := id m; conversation_id := conversation_id m;
     sender_id := sender_id m; content := content m;
     message_type := message_type m; translation := translation m;
     created_at := created_at m; is_read := is_read m;
     edited_at := edited_at m; parent_message_id := parent_message_id m;
     is_pinned := is_pinned m; reactions := r;
     is_deleted := is_deleted m; deleted_at := deleted_at m |}.

(** [{...m, is_read: true}] *)
Definition setRead (m : Message) : Message :=
  {| id := id m; conversation_id := conversation_id m;
     sender_id := sender_id m; content := content m;
     message_type := message_type m; translation := translation m;
     created_at := created_at m; is_read := true;
     edited_at := edited_at m; parent_message_id := parent_message_id m;
     is_pinned := is_pinned m; reactions := reactions m;
     is_deleted := is_deleted m; deleted_at := deleted_at m |}.

(** A row of [public.typing_indicators], unique on
    [(conversation_id, user_id)]. *)
Record TypingIndicator : Type := {
  ti_conversation_id : str;
  ti_user_id : str;
  started_at : Time
}.

(** A row of [public.conversations]. *)
Record Conversation : Type := {
  conv_id : str;
  participant1_id : str;
  participant2_id : str;
  last_message_at : Time
}.

End Model.

(* ================================================================== *)
(** ** The hosted database, as the client's queries address it *)

Module Backend.
Import Js Model.

Record DB : Type := {
  messagesT : list Message;
  typingT : list TypingIndicator;
  conversationsT : list Conversation
}.

(** The requests the two components send.  Each constructor is one
    query-builder chain of the source, with the values it interpolates. *)
Inductive Request : Type :=
| SelectUserMode (user : str)
| SelectMessages (conv : str)
| SubscribeMessages (conv : str)
| SubscribeTyping (conv : str)
| MarkRead (conv user : str)
| UpsertTyping (conv user : str) (t : Time)
| DeleteTyping (conv user : str)
| UpdateContent (mid newContent : str) (t : Time)
| InsertMessage (conv sender newContent mtype : str) (parent : option str)
| SoftDelete (mid : str) (t : Time)
| UpdatePinned (mid : str) (b : bool)
| UpdateReactions (mid : str) (r : json)
| FindConversation (a b : str)
| InsertConversation (p1 p2 : str).

(** A [postgres_changes] notification on [public.messages]; [payload.new]
    is the row after the write. *)
Inductive Change : Type :=
| INSERT (new : Message)
| UPDATE (new : Message).

Definition payload (c : Change) : Message :=
  match c with
  | INSERT m => m
  | UPDATE m => m
  end.

(** Stable insertion sort on a numeric key: [ORDER BY key ASC]. *)
Fixpoint insertBy {A} (key : A -> N) (x : A) (l : list A) : list A :=
  match l with
  | [] => [x]
  | y :: l' => if (key x <=? key y)%N then x :: l else y :: insertBy key x l'
  end.

Fixpoint sortBy {A} (key : A -> N) (l : list A) : list A :=
  match l with
  | [] => []
  | x :: l' => insertBy key x (sortBy key l')
  end.

(** The order [sortBy] establishes. *)
Definition ascending {A} (key : A -> N) (a b : A) : Prop :=
  (key a <= key b)%N.

(** [.from("messages").select("*").eq("conversation_id", conv)
     .eq("is_deleted", false).order("created_at", {ascending: true})] *)
Definition selectMessages (conv : str) (db : DB) : list Message :=
  sortBy created_at
    (filter (fun r => str_eqb (conversation_id r) conv && negb (is_deleted r))
            (messagesT db)).

(** [UPDATE messages SET ... WHERE p]: the rows that satisfy [p] are
    rewritten in place and one UPDATE notification is published per
    rewritten row. *)
Definition updateMessages (p : Message -> bool) (f : Message -> Message)
    (db : DB) : DB * list Change :=
  ({| messagesT := map (fun r => if p r then f r else r) (messagesT db);
      typingT := typingT db;
      conversationsT := conversationsT db |},
   map (fun r => UPDATE (f r)) (filter p (messagesT db))).

(** The filter of [markMessagesAsRead]:
    [.eq("conversation_id", conv).neq("sender_id", user).eq("is_read", false)] *)
Definition unreadFromPeer (conv user : str) (r : Message) : bool :=
  str_eqb (conversation_id r) conv
  && negb (str_eqb (sender_id r) user)
  && negb (is_read r).

Definition hasId (mid : str) (r : Message) : bool := str_eqb (id r) mid.

Definition sameTyping (conv user : str) (r : TypingIndicator) : bool :=
  str_eqb (ti_conversation_id r) conv && str_eqb (ti_user_id r) user.

(** The upsert of a typing row as the client sends it: no conflict target
    is named, so the statement resolves conflicts on the primary key [id],
    which the payload does not carry and the table draws afresh.  It is
    therefore an insert: it creates the row when the pair has none, and it
    is rejected by the uniqueness on [(conversation_id, user_id)] when the
    pair has a row, which then stays as it is. *)
Definition upsertTyping (conv user : str) (t : Time)
    (rows : list TypingIndicator) : list TypingIndicator :=
  if existsb (sameTyping conv user) rows
  then rows
  else rows ++ [{| ti_conversation_id := conv;
                   ti_user_id := user;
                   started_at := t |}].

Definition deleteTyping (conv user : str)
    (rows : list TypingIndicator) : list TypingIndicator :=
  filter (fun r => negb (sameTyping conv user r)) rows.

(** The row an insert into [public.messages] creates: the columns the
    client does not send take their declared defaults. *)
Definition newRow (fresh : str) (now : Time)
    (conv sender newContent mtype : str) (parent : option str) : Message :=
  {| id := fresh; conversation_id := conv; sender_id := sender;
     content := newContent; message_type := mtype; translation := None;
     created_at := now; is_read := false; edited_at := None;
     parent_message_id := parent; is_pinned := false;
     reactions := JArr []; is_deleted := false; deleted_at := None |}.

(** Trigger [update_conversation_on_message]. *)
Definition touchConversation (conv : str) (t : Time)
    (rows : list Conversation) : list Conversation :=
  map (fun c => if str_eqb (conv_id c) conv
                then {| conv_id := conv_id c;
                        participant1_id := participant1_id c;
                        participant2_id := participant2_id c;
                        last_message_at := t |}
                else c) rows.

(** A write executed at server time [now]; [fresh] is the identifier
    [gen_random_uuid()] draws for an inserted row.  Reads and
    subscriptions leave the tables alone. *)
Definition exec (now : Time) (fresh : str) (q : Request) (db : DB)
    : DB * list Change :=
  match q with
  | MarkRead conv user => updateMessages (unreadFromPeer conv user) setRead db
  | UpdateContent mid c t => updateMessages (hasId mid) (setContent c t) db
  | SoftDelete mid t => updateMessages (hasId mid) (setDeleted t) db
  | UpdatePinned mid b => updateMessages (hasId mid) (setPinned b) db
  | UpdateReactions mid r => updateMessages (hasId mid) (setReactions r) db
  | InsertMessage conv sender c mtype parent =>
      let row := newRow fresh now conv sender c mtype parent in
      ({| messagesT := messagesT db ++ [row];
          typingT := typingT db;
          conversationsT := touchConversation conv now (conversationsT db) |},
       [INSERT row])
  | UpsertTyping conv user t =>
      ({| messagesT := messagesT db;
          typingT := upsertTyping conv user t (typingT db);
          conversationsT := conversationsT db |}, [])
  | DeleteTyping conv user =>
      ({| messagesT := messagesT db;
          typingT := deleteTyping conv user (typingT db);
          conversationsT := conversationsT db |}, [])
  | InsertConversation p1 p2 =>
      ({| messagesT := messagesT db;
          typingT := typingT db;
          conversationsT := conversationsT db ++
            [{| conv_id := fresh; participant1_id := p1;
                participant2_id := p2; last_message_at := now |}] |}, [])
  | SelectUserMode _ | SelectMessages _ | SubscribeMessages _
  | SubscribeTyping _ | FindConversation _ _ => (db, [])
  end.

(** The channel filter [conversation_id=eq.conv] of a subscription. *)
Definition deliver (conv : str) (cs : list Change) : list Change :=
  filter (fun c => str_eqb (conversation_id (payload c)) conv) cs.

(** [.or(and(participant1_id.eq.a,participant2_id.eq.b),
         and(participant1_id.eq.b,participant2_id.eq.a))] *)
Definition between (a b : str) (c : Conversation) : bool :=
  (str_eqb (participant1_id c) a && str_eqb (participant2_id c) b)
  || (str_eqb (participant1_id c) b && str_eqb (participant2_id c) a).

Definition findConversation (a b : str) (db : DB) : list Conversation :=
  filter (between a b) (conversationsT db).

(** A response of the client library: [{ data, error }]. *)
Record Response (A : Type) : Type := {
  data : option A;
  error : bool
}.
Arguments data {A} _.
Arguments error {A} _.

(** [.maybeSingle()]: no row gives [data: null] without error, one row
    gives that row, several rows give an error and [data: null]. *)
Definition maybeSingle {A} (rows : list A) : Response A :=
  match rows with
  | [] => {| data := None; error := false |}
  | [r] => {| data := Some r; error := false |}
  | _ :: _ :: _ => {| data := None; error := true |}
  end.

End Backend.

(* ================================================================== *)
(** ** The chat page (src/pages/Chat.tsx) *)

Module Chat.
Import Js Model Backend.

(** [useParams()] and [useAuth()]: the conversation shown and the
    signed-in user. *)
Record Props : Type := {
  conversationId : str;
  user : str
}.

(** What a handler shows or logs. *)
Inductive Effect : Type :=
| Toast (title : string) (description : option string)
| ConsoleError (what : string).

(** A pending [setTimeout] of the page.  Its only callback deletes the
    typing row of the pair it closed over. *)
Record Timer : Type := {
  handle : positive;
  due : Time;
  timerConversation : str;
  timerUser : str
}.

(** The browser's timer table. *)
Record Timers : Type := {
  nextHandle : positive;
  pending : list Timer
}.

Definition clearTimeout (h : positive) (ts : Timers) : Timers :=
  {| nextHandle := nextHandle ts;
     pending := filter (fun t => negb (Pos.eqb (handle t) h)) (pending ts) |}.

Definition setTimeout (conv who : str) (now delay : N) (ts : Timers)
    : positive * Timers :=
  (nextHandle ts,
   {| nextHandle := Pos.succ (nextHandle ts);
      pending := pending ts ++
        [{| handle := nextHandle ts; due := (now + delay)%N;
            timerConversation := conv; timerUser := who |}] |}).

(** The event loop reaching time [now]: every timer that is due runs, in
    order of its due time, and leaves the table. *)
Definition fire (now : Time) (ts : Timers) : Timers * list Request :=
  ({| nextHandle := nextHandle ts;
      pending := filter (fun t => negb (due t <=? now)%N) (pending ts) |},
   map (fun t => DeleteTyping (timerConversation t) (timerUser t))
       (sortBy due (filter (fun t => (due t <=? now)%N) (pending ts)))).

(** The component state the message engine reads and writes. *)
Record State : Type := {
  messages : list Message;
  newMessage : str;
  isSending : bool;
  editingMessageId : option str;
  replyingTo : option Message;
  typingTimeoutRef : option positive
}.

Definition setMessages (v : list Message) (st : State) : State :=
  {| messages := v; newMessage := newMessage st; isSending := isSending st;
     editingMessageId := editingMessageId st; replyingTo := replyingTo st;
     typingTimeoutRef := typingTimeoutRef st |}.

Definition setNewMessage (v : str) (st : State) : State :=
  {| messages := messages st; newMessage := v; isSending := isSending st;
     editingMessageId := editingMessageId st; replyingTo := replyingTo st;
     typingTimeoutRef := typingTimeoutRef st |}.

Definition setIsSending (v : bool) (st : State) : State :=
  {| messages := messages st; newMessage := newMessage st; isSending := v;
     editingMessageId := editingMessageId st; replyingTo := replyingTo st;
     typingTimeoutRef := typingTimeoutRef st |}.

Definition setEditingMessageId (v : option str) (st : State) : State :=
  {| messages := messages st; newMessage := newMessage st;
     isSending := isSending st; editingMessageId := v;
     replyingTo := replyingTo st; typingTimeoutRef := typingTimeoutRef st |}.

Definition setReplyingTo (v : option Message) (st : State) : State :=
  {| messages := messages st; newMessage := newMessage st;
     isSending := isSending st; editingMessageId := editingMessageId st;
     replyingTo := v; typingTimeoutRef := typingTimeoutRef st |}.

Definition setTypingTimeoutRef (v : option positive) (st : State) : State :=
  {| messages := messages st; newMessage := newMessage st;
     isSending := isSending st; editingMessageId := editingMessageId st;
     replyingTo := replyingTo st; typingTimeoutRef := v |}.

(** *** fetchMessages *)

(** The object built for an entry [r]: [emoji] is [r.emoji] or else the
    empty string, [user_id] is [r.user_id] or else the empty string, [count]
    is [r.count] or else 1, each [or else] being JavaScript's [||]. *)
Definition normalizeReaction (r : json) : result json :=
  bind (getProp r (lit "emoji")) (fun e =>
  bind (getProp r (lit "user_id")) (fun u =>
  bind (getProp r (lit "count")) (fun c =>
  Ok (JObj [(lit "emoji", orElse e (JStr []));
            (lit "user_id", orElse u (JStr []));
            (lit "count", orElse c (JNum 1))])))).

(** [Array.isArray(msg.reactions) ? msg.reactions.map(...) : []] *)
Definition normalizeReactions (v : json) : result json :=
  match v with
  | JArr items => bind (mapM normalizeReaction items) (fun l => Ok (JArr l))
  | _ => Ok (JArr [])
  end.

(** [{ ...msg, reactions: ... }] *)
Definition normalizeMessage (msg : Message) : result Message :=
  bind (normalizeReactions (reactions msg))
       (fun r => Ok (setReactions r msg)).

Definition loadFailed : list Effect :=
  [ConsoleError "Error fetching messages:";
   Toast "Error" (Some "Failed to load messages"%string)].

(** The query [fetchMessages] sends. *)
Definition fetchMessages (p : Props) : list Request :=
  [SelectMessages (conversationId p)].

(** [fetchMessages] after its [await]: an error response or an exception
    in the mapping ends in the [catch] block, which leaves the state as it
    is; otherwise the mapped rows replace [messages]. *)
Definition fetchMessages_resume (resp : Response (list Message)) (st : State)
    : State * list Effect :=
  if error resp then (st, loadFailed)
  else
    match mapM normalizeMessage
               (match data resp with Some d => d | None => [] end) with
    | Ok msgs => (setMessages msgs st, [])
    | TypeError => (st, loadFailed)
    end.

(** An initial load answered by the database [db]. *)
Definition initialLoad (p : Props) (db : DB) (st : State)
    : State * list Effect :=
  fetchMessages_resume
    {| data := Some (selectMessages (conversationId p) db); error := false |}
    st.

(** *** markMessagesAsRead and the mount effect *)

Definition markMessagesAsRead (p : Props) : list Request :=
  [MarkRead (conversationId p) (user p)].

(** The effect that runs on entering a conversation.  The two
    [subscribe()] calls send their join while the body of the effect
    runs; a query builder sends its request only once it is awaited, in a
    microtask after the body, so the three queries leave afterwards, in
    the order of their calls. *)
Definition mountEffect (p : Props) : list Request :=
  [SubscribeMessages (conversationId p)]
  ++ [SubscribeTyping (conversationId p)]
  ++ [SelectUserMode (user p)]
  ++ fetchMessages p
  ++ markMessagesAsRead p.

(** *** subscribeToMessages: the realtime merge *)

Definition onInsert (newMsg : Message) (st : State) : State :=
  if negb (is_deleted newMsg)
  then setMessages (messages st ++ [newMsg]) st
  else st.

Definition onUpdate (updated : Message) (st : State) : State :=
  setMessages
    (map (fun msg => if str_eqb (id msg) (id updated) then updated else msg)
         (messages st))
    st.

Definition subscribeToMessages (c : Change) (st : State) : State :=
  match c with
  | INSERT newMsg => onInsert newMsg st
  | UPDATE updated => onUpdate updated st
  end.

(** The notifications of one write, merged in order. *)
Definition merge (cs : list Change) (st : State) : State :=
  fold_left (fun s c => subscribeToMessages c s) cs st.

(** *** handleTyping *)

Definition handleTyping (p : Props) (now : Time) (st : State) (ts : Timers)
    : State * Timers * list Request :=
  let ts1 := match typingTimeoutRef st with
             | Some h => clearTimeout h ts
             | None => ts
             end in
  let '(h, ts2) := setTimeout (conversationId p) (user p) now 3000 ts1 in
  (setTypingTimeoutRef (Some h) st, ts2,
   [UpsertTyping (conversationId p) (user p) now]).

(** *** handleSendMessage *)

(** Where the handler is suspended. *)
Inductive SendAwait : Type :=
| AwaitUpdate
| AwaitInsert
| AwaitTypingClear.

(** [if (editingMessageId)] *)
Definition editing (st : State) : option str :=
  match editingMessageId st with
  | Some mid => if truthy_str mid then Some mid else None
  | None => None
  end.

(** [replyingTo?.id || null] *)
Definition replyParent (st : State) : option str :=
  match replyingTo st with
  | Some m => if truthy_str (id m) then Some (id m) else None
  | None => None
  end.

(** The handler up to its first [await]. *)
Definition handleSendMessage (p : Props) (now : Time) (st : State)
    : State * list Request * option SendAwait :=
  if negb (truthy_str (trim (newMessage st))) || isSending st
  then (st, [], None)
  else
    match editing st with
    | Some mid =>
        (setIsSending true st,
         [UpdateContent mid (newMessage st) now],
         Some AwaitUpdate)
    | None =>
        (setIsSending true st,
         [InsertMessage (conversationId p) (user p) (newMessage st)
                        (lit "text") (replyParent st)],
         Some AwaitInsert)
    end.

Definition sendFailed : list Effect :=
  [ConsoleError "Error sending message:";
   Toast "Error" (Some "Failed to send message"%string)].

(** After the write: clear the draft and the reply target, then clear the
    typing row. *)
Definition sendTail (p : Props) (st : State)
    : State * list Request * list Effect * option SendAwait :=
  (setReplyingTo None (setNewMessage [] st),
   [DeleteTyping (conversationId p) (user p)],
   [],
   Some AwaitTypingClear).

(** The handler resumed at [k] with a response whose [error] is
    [failed].  The edit branch does not look at the response. *)
Definition handleSendMessage_resume (p : Props) (k : SendAwait)
    (failed : bool) (st : State)
    : State * list Request * list Effect * option SendAwait :=
  match k with
  | AwaitUpdate => sendTail p (setEditingMessageId None st)
  | AwaitInsert =>
      if failed
      then (setIsSending false st, [], sendFailed, None)
      else sendTail p st
  | AwaitTypingClear => (setIsSending false st, [], [], None)
  end.

(** *** handleEditMessage, handleReply *)

Definition handleEditMessage (message : Message) (st : State) : State :=
  setEditingMessageId (Some (id message))
                      (setNewMessage (content message) st).

Definition handleReply (message : Message) (st : State) : State :=
  setReplyingTo (Some message) st.

(** *** handleDeleteMessage *)

Definition handleDeleteMessage (now : Time) (messageId : str)
    : list Request :=
  [SoftDelete messageId now].

(** After the [await]; the response is not inspected. *)
Definition handleDeleteMessage_resume (messageId : str) (st : State)
    : State * list Effect :=
  (setMessages
     (filter (fun msg => negb (str_eqb (id msg) messageId)) (messages st))
     st,
   [Toast "Message deleted" None]).

(** *** handlePinMessage *)

Definition handlePinMessage (messageId : str) (currentPinned : bool)
    : list Request :=
  [UpdatePinned messageId (negb currentPinned)].

Definition handlePinMessage_resume (currentPinned : bool) : list Effect :=
  [Toast (if currentPinned then "Message unpinned" else "Message pinned")
         None].

(** *** handleReaction *)

(** [r.emoji === emoji && r.user_id === user?.id] *)
Definition isReactionOf (emoji who : str) (r : json) : result bool :=
  bind (getProp r (lit "emoji")) (fun e =>
    if strictEqStr e emoji
    then bind (getProp r (lit "user_id")) (fun u => Ok (strictEqStr u who))
    else Ok false).

(** [{ emoji, user_id: user?.id, count: 1 }] *)
Definition newReaction (emoji who : str) : json :=
  JObj [(lit "emoji", JStr emoji);
        (lit "user_id", JStr who);
        (lit "count", JNum 1)].

(** The collection the handler writes back, or [TypeError] where the
    [try] block is left by an exception ([reactions] without a [find]
    method, a [null] entry). *)
Definition toggled (emoji who : str) (current : json) : result json :=
  match (if truthy current then current else JArr []) with
  | JArr rs =>
      bind (findM (isReactionOf emoji who) rs) (fun existingReaction =>
        if match existingReaction with
           | Some r => truthy r
           | None => false
           end
        then bind (filterM (fun r => bind (isReactionOf emoji who r)
                                          (fun b => Ok (negb b))) rs)
                  (fun kept => Ok (JArr kept))
        else Ok (JArr (rs ++ [newReaction emoji who])))
  | _ => TypeError
  end.

Definition handleReaction (p : Props) (messageId emoji : str) (st : State)
    : list Request * list Effect :=
  match find (hasId messageId) (messages st) with
  | None => ([], [])
  | Some message =>
      match toggled emoji (user p) (reactions message) with
      | Ok newReactions => ([UpdateReactions messageId newReactions], [])
      | TypeError => ([], [ConsoleError "Error updating reaction:"])
      end
  end.

(** *** The message list as rendered *)

(** One message card: its React key, whose side it is on (the edit and
    delete entries of its menu are shown exactly when [isOwnMessage]), the
    quoted parent, the text, the translation, the edited mark and, on
    own messages, the read mark.  The reaction badges and the emoji
    picker of a card are left out. *)
Record Bubble : Type := {
  key : str;
  isOwnMessage : bool;
  replyPreview : option str;
  text : str;
  translated : option str;
  edited : bool;
  readMark : option bool
}.

Definition renderMessage (p : Props) (all : list Message) (message : Message)
    : Bubble :=
  {| key := id message;
     isOwnMessage := str_eqb (sender_id message) (user p);
     replyPreview :=
       match parent_message_id message with
       | Some pid =>
           if truthy_str pid
           then option_map (fun parent => substring0 50 (content parent))
                           (find (hasId pid) all)
           else None
       | None => None
       end;
     text := content message;
     translated :=
       match translation message with
       | Some t => if truthy_str t then Some t else None
       | None => None
       end;
     edited := match edited_at message with Some _ => true | None => false end;
     readMark := if str_eqb (sender_id message) (user p)
                 then Some (is_read message) else None |}.

(** [messages.map((message) => ...)]: every entry of the sequence gets a
    card. *)
Definition render (p : Props) (st : State) : list Bubble :=
  map (renderMessage p (messages st)) (messages st).

(** The pinned strip: [messages.filter((m) => m.is_pinned)]. *)
Definition pinnedStrip (st : State) : list str :=
  map content (filter is_pinned (messages st)).

End Chat.

(* ================================================================== *)
(** ** The user list (OnlineUsers) *)

Module OnlineUsers.
Import Js Model Backend.

Inductive Outcome : Type :=
| Navigate (conversation : str)
| ErrorToast
| Nothing.

(** [handleStartChat] up to its first [await]; [me] is [None] when nobody
    is signed in. *)
Definition handleStartChat (me : option str) (otherUserId : str)
    : list Request :=
  match me with
  | None => []
  | Some u => [FindConversation u otherUserId]
  end.

(** After the lookup: only [data] of the response is read. *)
Definition handleStartChat_looked (u otherUserId : str)
    (resp : Response Conversation) : list Request * Outcome :=
  match data resp with
  | Some existingConversation => ([], Navigate (conv_id existingConversation))
  | None => ([InsertConversation u otherUserId], Nothing)
  end.

(** After the insert ([.select().single()] returns the new row). *)
Definition handleStartChat_created (resp : Response Conversation) : Outcome :=
  if error resp then ErrorToast
  else match data resp with
       | Some newConversation => Navigate (conv_id newConversation)
       | None => ErrorToast
       end.

(** The whole handler against the database [db]: the tables afterwards,
    the requests that were sent and where the user lands. *)
Definition startChat (now : Time) (fresh : str) (u otherUserId : str)
    (db : DB) : DB * list Request * Outcome :=
  let q := handleStartChat (Some u) otherUserId in
  let '(more, out) :=
    handleStartChat_looked u otherUserId
      (maybeSingle (findConversation u otherUserId db)) in
  match more with
  | [] => (db, q, out)
  | ins :: _ =>
      let db' := fst (exec now fresh ins db) in
      (db', q ++ more,
       handleStartChat_created
         {| data := Some {| conv_id := fresh; participant1_id := u;
                            participant2_id := otherUserId;
                            last_message_at := now |};
            error := false |})
  end.

End OnlineUsers.

(* ================================================================== *)
(** ** A page and the database together *)

Module Session.
Import Js Model Backend Chat.

(** The [useState] defaults of a page that has just been opened. *)
Definition initialState : State :=
  {| messages := []; newMessage := []; isSending := false;
     editingMessageId := None; replyingTo := None;
     typingTimeoutRef := None |}.

Definition noTimers : Timers := {| nextHandle := 1%positive; pending := [] |}.

(** One write reaching the database, and its notifications reaching a page
    subscribed to conversation [conversationId p]. *)
Definition commit (p : Props) (now : Time) (fresh : str) (q : Request)
    (w : DB * State) : DB * State :=
  let '(db', cs) := exec now fresh q (fst w) in
  (db', merge (deliver (conversationId p) cs) (snd w)).

(** Requests executed in the order they were issued. *)
Definition execAll (now : Time) (fresh : str) (qs : list Request) (db : DB)
    : DB :=
  fold_left (fun d q => fst (exec now fresh q d)) qs db.

(** A keystroke at time [now]. *)
Definition keystroke (p : Props) (now : Time) (w : State * Timers * DB)
    : State * Timers * DB :=
  let '(st, ts, db) := w in
  let '(st', ts', qs) := handleTyping p now st ts in
  (st', ts', execAll now [] qs db).

(** Time passing until [now] with no input. *)
Definition elapse (now : Time) (w : State * Timers * DB)
    : State * Timers * DB :=
  let '(st, ts, db) := w in
  let '(ts', qs) := fire now ts in
  (st, ts', execAll now [] qs db).

(** Every pending timer is the one the page's ref points at; it holds
    on a page opened in a fresh tab and as long as the page stays
    mounted. *)
Definition timersOwned (st : State) (ts : Timers) : Prop :=
  forall t, In t (pending ts) -> typingTimeoutRef st = Some (handle t).

(** The typing rows of a pair. *)
Definition typingRows (conv who : str) (db : DB) : list TypingIndicator :=
  filter (sameTyping conv who) (typingT db).

(** The uniqueness constraint of [typing_indicators]. *)
Definition typingUnique (db : DB) : Prop :=
  forall conv who, (List.length (typingRows conv who db) <= 1)%nat.

(** Leaving the page and opening it again in the same browser tab.  The
    cleanup of the mount effect only removes the two channels: a pending
    timer stays in the browser's table and will still run, while the new
    mount starts from the [useState] and [useRef] defaults, its ref
    pointing at no timer. *)
Definition reopen (w : State * Timers * DB) : State * Timers * DB :=
  (initialState, snd (fst w), snd w).

(** What keystrokes (in whichever conversation the page shows at the
    moment), the passing of time and reopening the page can lead to from
    a page opened in a fresh tab. *)
Inductive TypingRun : State * Timers * DB -> Prop :=
| opened db : typingUnique db -> TypingRun (initialState, noTimers, db)
| typed p now w : TypingRun w -> TypingRun (keystroke p now w)
| waited now w : TypingRun w -> TypingRun (elapse now w)
| reopened w : TypingRun w -> TypingRun (reopen w).

(** [InFlight p st k]: in state [st] a submission of this page is
    suspended at [k].  It was started by [handleSendMessage], may have been
    resumed, and other handlers of the page may have run in between. *)
Inductive InFlight (p : Props) : State -> SendAwait -> Prop :=
| started now st st' qs k :
    handleSendMessage p now st = (st', qs, Some k) ->
    InFlight p st' k
| resumed k failed st st' qs es k' :
    InFlight p st k ->
    handleSendMessage_resume p k failed st = (st', qs, es, Some k') ->
    InFlight p st' k'
| merged c st k :
    InFlight p st k -> InFlight p (subscribeToMessages c st) k
| loaded resp st k :
    InFlight p st k -> InFlight p (fst (fetchMessages_resume resp st)) k
| removed mid st k :
    InFlight p st k -> InFlight p (fst (handleDeleteMessage_resume mid st)) k
| picked m st k :
    InFlight p st k -> InFlight p (handleEditMessage m st) k
| replied m st k :
    InFlight p st k -> InFlight p (handleReply m st) k
| cancelledReply st k :
    InFlight p st k -> InFlight p (setReplyingTo None st) k
| cancelledEdit st k :
    InFlight p st k ->
    InFlight p (setNewMessage [] (setEditingMessageId None st)) k.

(** [r'] is [r] with a new text and edit timestamp and nothing else
    changed. *)
Definition editedFrom (c : str) (t : Time) (r r' : Message) : Prop :=
  content r' = c /\ edited_at r' = Some t
  /\ id r' = id r /\ conversation_id r' = conversation_id r
  /\ sender_id r' = sender_id r /\ message_type r' = message_type r
  /\ translation r' = translation r /\ created_at r' = created_at r
  /\ is_read r' = is_read r /\ parent_message_id r' = parent_message_id r
  /\ is_pinned r' = is_pinned r /\ reactions r' = reactions r
  /\ is_deleted r' = is_deleted r /\ deleted_at r' = deleted_at r.

(** [r'] is [r] marked read and nothing else changed. *)
Definition markedFrom (r r' : Message) : Prop :=
  is_read r' = true
  /\ id r' = id r /\ conversation_id r' = conversation_id r
  /\ sender_id r' = sender_id r /\ content r' = content r
  /\ message_type r' = message_type r /\ translation r' = translation r
  /\ created_at r' = created_at r /\ edited_at r' = edited_at r
  /\ parent_message_id r' = parent_message_id r
  /\ is_pinned r' = is_pinned r /\ reactions r' = reactions r
  /\ is_deleted r' = is_deleted r /\ deleted_at r' = deleted_at r.

(** [r'] is [r] soft-deleted at [t] and nothing else changed. *)
Definition deletedFrom (t : Time) (r r' : Message) : Prop :=
  is_deleted r' = true /\ deleted_at r' = Some t
  /\ id r' = id r /\ conversation_id r' = conversation_id r
  /\ sender_id r' = sender_id r /\ content r' = content r
  /\ message_type r' = message_type r /\ translation r' = translation r
  /\ created_at r' = created_at r /\ is_read r' = is_read r
  /\ edited_at r' = edited_at r
  /\ parent_message_id r' = parent_message_id r
  /\ is_pinned r' = is_pinned r /\ reactions r' = reactions r.

(** The well-formed record an entry of a reaction collection is coerced
    to: [emoji] and [user_id] default to the empty string, [count] to 1.
    It is total; [normalizeReaction] is compared with it below. *)
Definition coerced (r : json) : json :=
  let field k := match r with
                 | JObj fields => lookup_field k fields
                 | _ => None
                 end in
  JObj [(lit "emoji", orElse (field (lit "emoji")) (JStr []));
        (lit "user_id", orElse (field (lit "user_id")) (JStr []));
        (lit "count", orElse (field (lit "count")) (JNum 1))].

(** A collection that is not an array becomes the empty list. *)
Definition coercedAll (v : json) : json :=
  match v with
  | JArr items => JArr (map coerced items)
  | _ => JArr []
  end.

(** No entry of the collection is [null]. *)
Definition noNullEntry (v : json) : Prop :=
  match v with
  | JArr items => ~ In JNull items
  | _ => True
  end.

(** The requests that write. *)
Definition isWrite (q : Request) : bool :=
  match q with
  | SelectUserMode _ | SelectMessages _ | SubscribeMessages _
  | SubscribeTyping _ | FindConversation _ _ => false
  | _ => true
  end.

End Session.

(* ================================================================== *)
(** ** Sample data *)

Module Examples.
Import Js Model Backend Chat Session.
#[local] Open Scope N_scope.

Definition alice : str := lit "alice".
Definition bob : str := lit "bob".

(** Alice's page on conversation [c1]. *)
Definition room : Props := {| conversationId := lit "c1"; user := alice |}.

(** Bob's page on the same conversation. *)
Definition roomOfBob : Props := {| conversationId := lit "c1"; user := bob |}.

(** A plain text message of conversation [c1]. *)
Definition msg (i : string) (who : str) (txt : string) (t : Time) : Message :=
  {| id := lit i; conversation_id := lit "c1"; sender_id := who;
     content := lit txt; message_type := lit "text"; translation := None;
     created_at := t; is_read := false; edited_at := None;
     parent_message_id := None; is_pinned := false;
     reactions := JArr []; is_deleted := false; deleted_at := None |}.

Definition m1 : Message := msg "m1" alice "hi" 10.
Definition m2 : Message := msg "m2" bob "hello" 20.
Definition m3 : Message := msg "m3" alice "bye" 30.

Definition db0 : DB :=
  {| messagesT := [m1; m2; m3]; typingT := [];
     conversationsT :=
       [{| conv_id := lit "c1"; participant1_id := alice;
           participant2_id := bob; last_message_at := 30 |}] |}.

(** A page that shows the three messages. *)
Definition shown : State := setMessages [m1; m2; m3] initialState.


Definition paddedDraft : State := setNewMessage (lit "  hello ") shown.

(** The thumbs-up sign, U+1F44D, as its surrogate pair. *)
Definition thumbsUp : str := [55357; 56397].

(** The second message carries Bob's thumbs-up. *)
Definition m2liked : Message :=
  setReactions (JArr [newReaction thumbsUp bob]) m2.

Definition likedDb : DB :=
  {| messagesT := [m1; m2liked; m3]; typingT := typingT db0;
     conversationsT := conversationsT db0 |}.

Definition likedShown : State := setMessages [m1; m2liked; m3] initialState.

(** The second message with a [null] among its reactions. *)
Definition m2broken : Message := setReactions (JArr [JNull]) m2.

Definition brokenDb : DB :=
  {| messagesT := [m1; m2broken; m3]; typingT := typingT db0;
     conversationsT := conversationsT db0 |}.

(** Alice and Bob with two conversations, one in each participant
    order. *)
Definition twoRooms : DB :=
  {| messagesT := []; typingT := [];
     conversationsT :=
       [{| conv_id := lit "c1"; participant1_id := alice;
           participant2_id := bob; last_message_at := 30 |};
        {| conv_id := lit "c2"; participant1_id := bob;
           participant2_id := alice; last_message_at := 31 |}] |}.

End Examples.

(* ================================================================== *)
(** ** Whole runs of the chat page's handlers *)

Module Runs.
Import Js Model Backend Chat Session.

(** [handleSendMessage] from the call to its return, with nothing else
    happening in between; [insertFails] is the [error] of the insert's
    response. *)
Definition runSend (p : Props) (now : Time) (insertFails : bool) (st : State)
    : State * list Request * list Effect :=
  match handleSendMessage p now st with
  | (st1, qs1, None) => (st1, qs1, [])
  | (st1, qs1, Some k1) =>
      match handleSendMessage_resume p k1 insertFails st1 with
      | (st2, qs2, es2, None) => (st2, qs1 ++ qs2, es2)
      | (st2, qs2, es2, Some k2) =>
          match handleSendMessage_resume p k2 false st2 with
          | (st3, qs3, es3, _) => (st3, qs1 ++ qs2 ++ qs3, es2 ++ es3)
          end
      end
  end.

(** Whether an entry is a reaction of [who] with [emoji], an entry the
    test throws on counting as not one. *)
Definition ownReaction (emoji who : str) (r : json) : bool :=
  match isReactionOf emoji who r with
  | Ok b => b
  | TypeError => false
  end.

Definition isRecord (v : json) : bool :=
  match v with
  | JObj _ => true
  | _ => false
  end.

(** The page's sequence is in ascending order of creation. *)
Definition chronological (st : State) : Prop :=
  StronglySorted (ascending created_at) (messages st).

(** A notification that respects the order of the page's sequence: an
    insert is not older than any entry, an update carries the creation
    time of the entries it replaces. *)
Definition inOrder (c : Change) (st : State) : Prop :=
  match c with
  | INSERT n =>
      forall x, In x (messages st) -> (created_at x <= created_at n)%N
  | UPDATE u =>
      forall x, In x (messages st) -> id x = id u ->
                created_at x = created_at u
  end.

End Runs.

(* ================================================================== *)
(** ** Presence in the user list (OnlineUsers) *)

Module Presence.
Import Js Model Backend.

Record Profile : Type := {
  profile_id : str;
  email : str
}.

(** One tracked presence of the [online-users] channel. *)
Record Tracked : Type := {
  presence_ref : str;
  user_id : str;
  tracked_email : str
}.

(** [channel.presenceState()]: the presences under each key, in the order
    [Object.values] enumerates them. *)
Definition PresenceState := list (str * list Tracked).

(** The [sync] callback: every presence of another user, in order. *)
Definition sync (me : str) (state : PresenceState) : list Profile :=
  flat_map
    (fun entry =>
       map (fun pr => {| profile_id := user_id pr;
                         email := tracked_email pr |})
           (filter (fun pr => negb (str_eqb (user_id pr) me)) (snd entry)))
    state.

(** [.from("profiles").select("*").neq("id", user.id)] *)
Definition fetchProfiles (me : str) (profilesT : list Profile)
    : list Profile :=
  filter (fun pf => negb (str_eqb (profile_id pf) me)) profilesT.

(** [onlineUsers.some((u) => u.id === profile.id)] *)
Definition isOnline (onlineUsers : list Profile) (profile : Profile) : bool :=
  existsb (fun u => str_eqb (profile_id u) (profile_id profile)) onlineUsers.

End Presence.

(* ================================================================== *)
(** ** The conversation list (src/pages/Conversations.tsx) *)

Module ConversationsPage.
Import Js Model Backend Chat.

(** A conversation with the participant on the other side. *)
Record Listed : Type := {
  conversation : Conversation;
  otherUserId : str
}.

Record State : Type := {
  conversations : list Listed;
  isLoading : bool
}.

(** [useState] defaults. *)
Definition initialState : State :=
  {| conversations := []; isLoading := true |}.

(** [.or(participant1_id.eq.u,participant2_id.eq.u)] *)
Definition takesPart (u : str) (c : Conversation) : bool :=
  str_eqb (participant1_id c) u || str_eqb (participant2_id c) u.

(** The order [ORDER BY last_message_at DESC] establishes. *)
Definition descending (a b : Conversation) : Prop :=
  (last_message_at b <= last_message_at a)%N.

(** [.from("conversations").select("*").or(...)
     .order("last_message_at", {ascending: false})] *)
Definition selectConversations (u : str) (db : DB) : list Conversation :=
  rev (sortBy last_message_at (filter (takesPart u) (conversationsT db))).

(** [{ ...conv, otherUserId: conv.participant1_id === user?.id
                              ? conv.participant2_id : conv.participant1_id }] *)
Definition withOtherUser (u : str) (conv : Conversation) : Listed :=
  {| conversation := conv;
     otherUserId := if str_eqb (participant1_id conv) u
                    then participant2_id conv
                    else participant1_id conv |}.

Definition listFailed : list Effect :=
  [ConsoleError "Error fetching conversations:";
   Toast "Error" (Some "Failed to load conversations"%string)].

(** [fetchConversations] after its [await].  An error response, or a
    response without data (on which [data.map] throws), ends in the
    [catch] block; the [finally] block clears the loading flag in every
    case. *)
Definition fetchConversations_resume (u : str)
    (resp : Response (list Conversation)) (st : State)
    : State * list Effect :=
  if error resp
  then ({| conversations := conversations st; isLoading := false |},
        listFailed)
  else
    match data resp with
    | Some rows =>
        ({| conversations := map (withOtherUser u) rows;
            isLoading := false |}, [])
    | None =>
        ({| conversations := conversations st; isLoading := false |},
         listFailed)
    end.

(** The list as the database [db] answers it. *)
Definition loadList (u : str) (db : DB) (st : State) : State * list Effect :=
  fetchConversations_resume u
    {| data := Some (selectConversations u db); error := false |} st.

End ConversationsPage.

(* ================================================================== *)
(** ** The profile page (src/pages/Profile.tsx) *)

Module ProfilePage.
Import Js Model Backend Chat.

Inductive Request : Type :=
| UpdateDisplayName (userId newName : str).

Record State : Type := {
  displayName : str;
  isSaving : bool
}.

Definition validationFailed : list Effect :=
  [Toast "Validation Error" (Some "Display name cannot be empty"%string)].

(** [handleSaveProfile] up to its [await]: [Some] requests when the
    handler is then suspended, [None] when it returned. *)
Definition handleSaveProfile (u : str) (st : State)
    : State * list Effect * option (list Request) :=
  if negb (truthy_str (trim (displayName st)))
  then (st, validationFailed, None)
  else ({| displayName := displayName st; isSaving := true |},
        [],
        Some [UpdateDisplayName u (trim (displayName st))]).

(** After the [await]. *)
Definition handleSaveProfile_resume (failed : bool) (st : State)
    : State * list Effect :=
  ({| displayName := displayName st; isSaving := false |},
   if failed
   then [ConsoleError "Error updating profile:";
         Toast "Error" (Some "Failed to update profile"%string)]
   else [Toast "Success" (Some "Profile updated successfully"%string)]).

End ProfilePage.

(* ================================================================== *)
(** ** More sample data *)

Module Samples.
Import Js Model Backend Chat Session.
#[local] Open Scope N_scope.

(** Alice's page with a reply to the second message being typed. *)
Definition replying : State :=
  setReplyingTo (Some Examples.m2)
    (setNewMessage (lit " ok ") Examples.shown).

(** A reply of Alice to the second message. *)
Definition reply : Message :=
  {| id := lit "m4"; conversation_id := lit "c1";
     sender_id := Examples.alice; content := lit "ok";
     message_type := lit "text"; translation := None;
     created_at := 40; is_read := false; edited_at := None;
     parent_message_id := Some (lit "m2"); is_pinned := false;
     reactions := JArr []; is_deleted := false; deleted_at := None |}.

Definition withReply : State :=
  setMessages [Examples.m1; Examples.m2; Examples.m3; reply] initialState.

(** Alice, Bob and Carol; Alice talks to both. *)
Definition carol : str := lit "carol".

Definition threeUsers : DB :=
  {| messagesT := [Examples.m1; Examples.m2; Examples.m3]; typingT := [];
     conversationsT :=
       [{| conv_id := lit "c1"; participant1_id := Examples.alice;
           participant2_id := Examples.bob; last_message_at := 30 |};
        {| conv_id := lit "c9"; participant1_id := carol;
           participant2_id := Examples.alice; last_message_at := 35 |}] |}.

Definition online : Presence.PresenceState :=
  [(lit "k1", [{| Presence.presence_ref := lit "r1";
                  Presence.user_id := Examples.alice;
                  Presence.tracked_email := lit "alice@x" |}]);
   (lit "k2", [{| Presence.presence_ref := lit "r2";
                  Presence.user_id := Examples.bob;
                  Presence.tracked_email := lit "bob@x" |}])].

End Samples.

(* ================================================================== *)
(** * Properties *)

Import Js Model Backend Chat Session.
#[local] Open Scope N_scope.

Section StringFacts.

Lemma str_eqb_refl (a : str) : str_eqb a a = true.
Proof.
  induction a as [|x a IH]; simpl; [reflexivity|].
  now rewrite N.eqb_refl, IH.
Qed.

Lemma str_eqb_eq (a b : str) : str_eqb a b = true <-> a = b.
Proof.
  split; [|intros ->; apply str_eqb_refl].
  revert b; induction a as [|x a IH]; intros [|y b]; simpl;
    try discriminate; [reflexivity|].
  intros H. apply andb_true_iff in H as [Hx Hr].
  apply N.eqb_eq in Hx. subst y. f_equal. now apply IH.
Qed.

Lemma str_eqb_neq (a b : str) : str_eqb a b = false <-> a <> b.
Proof.
  rewrite <- str_eqb_eq. destruct (str_eqb a b); split; congruence.
Qed.

Lemma truthy_str_false (s : str) : truthy_str s = false <-> s = [].
Proof. destruct s; simpl; split; congruence. Qed.

Lemma trimStart_nil (s : str) :
  trimStart s = [] <-> forallb isWhiteSpace s = true.
Proof.
  induction s as [|c s IH]; simpl; [tauto|].
  destruct (isWhiteSpace c); simpl; [exact IH | split; discriminate].
Qed.

Lemma trimStart_blank_tail (s : str) :
  forallb isWhiteSpace (trimStart s) = true -> trimStart s = [].
Proof.
  induction s as [|c s IH]; simpl; [reflexivity|].
  destruct (isWhiteSpace c) eqn:E; [exact IH|].
  simpl. rewrite E. discriminate.
Qed.

Lemma forallb_rev {A} (f : A -> bool) (l : list A) :
  forallb f (rev l) = forallb f l.
Proof.
  induction l as [|x l IH]; simpl; [reflexivity|].
  rewrite forallb_app, IH. simpl. rewrite andb_true_r. apply andb_comm.
Qed.

(** The guard of the send handler: a draft trims to the empty string
    exactly when it consists of whitespace only. *)
Lemma trim_nil_iff_blank (s : str) :
  trim s = [] <-> forallb isWhiteSpace s = true.
Proof.
  unfold trim, trimEnd. split.
  - intros H. apply (f_equal (@rev N)) in H. rewrite rev_involutive in H.
    simpl in H. apply trimStart_nil in H. rewrite forallb_rev in H.
    apply trimStart_nil. now apply trimStart_blank_tail.
  - intros H. apply trimStart_nil in H. rewrite H. reflexivity.
Qed.

End StringFacts.

Section Send.

Variable p : Props.



(** C10.  A draft that is not empty once trimmed is sent as typed: the
    insert carries the raw draft, and the row the database stores has that
    very string as its content, leading and trailing whitespace
    included. *)
Theorem handleSendMessage_inserts_verbatim (now : Time) (st : State) :
  trim (newMessage st) <> [] ->
  isSending st = false ->
  editing st = None ->
  handleSendMessage p now st =
    (setIsSending true st,
     [InsertMessage (conversationId p) (user p) (newMessage st)
                    (lit "text") (replyParent st)],
     Some AwaitInsert)
  /\ forall serverNow fresh db,
       exists row,
         messagesT (fst (exec serverNow fresh
                           (InsertMessage (conversationId p) (user p)
                              (newMessage st) (lit "text") (replyParent st))
                           db))
         = messagesT db ++ [row]
         /\ content row = newMessage st
         /\ id row = fresh
         /\ conversation_id row = conversationId p
         /\ sender_id row = user p.
Proof.
  intros Hdraft Hidle Hedit. split.
  - unfold handleSendMessage. rewrite Hidle, Hedit, orb_false_r.
    destruct (trim (newMessage st)) as [|c rest]; [congruence|].
    reflexivity.
  - intros serverNow fresh db. simpl.
    eexists. split; [reflexivity|]. simpl. repeat split.
Qed.

End Send.


(** A second Enter while the first send waits for the database. *)
Example second_submission_in_flight :
  let '(st1, qs, k) := handleSendMessage Examples.room 5 Examples.paddedDraft in
  k = Some AwaitInsert
  /\ InFlight Examples.room st1 AwaitInsert
  /\ handleSendMessage Examples.room 6 st1 = (st1, [], None).
Proof.
  simpl. split; [reflexivity|]. split; [|reflexivity].
  apply (started Examples.room 5 Examples.paddedDraft _
           [InsertMessage (lit "c1") Examples.alice (lit "  hello ")
                          (lit "text") None]).
  reflexivity.
Qed.

Example trim_padded : trim (lit "  hello ") = lit "hello".
Proof. reflexivity. Qed.

Lemma handleSendMessage_inserts_verbatim_witness :
  (trim (newMessage Examples.paddedDraft) <> []
   /\ isSending Examples.paddedDraft = false
   /\ editing Examples.paddedDraft = None)
  /\ handleSendMessage Examples.room 5 Examples.paddedDraft =
       (setIsSending true Examples.paddedDraft,
        [InsertMessage (lit "c1") Examples.alice (lit "  hello ")
                       (lit "text") None],
        Some AwaitInsert).
Proof.
  assert (H1 : trim (newMessage Examples.paddedDraft) <> [])
    by (vm_compute; discriminate).
  split; [repeat split; [exact H1]|].
  exact (proj1 (handleSendMessage_inserts_verbatim Examples.room 5
                  Examples.paddedDraft H1 eq_refl eq_refl)).
Defined.

(* ------------------------------------------------------------------ *)
(** ** Ordering and exception-passing list operations *)

Section ListFacts.

Context {A : Type} (sortKey : A -> N).

Lemma insertBy_perm (x : A) (l : list A) :
  Permutation (insertBy sortKey x l) (x :: l).
Proof.
  induction l as [|y l IH]; simpl; [apply Permutation_refl|].
  destruct (sortKey x <=? sortKey y); [apply Permutation_refl|].
  now rewrite IH; apply perm_swap.
Qed.

Lemma sortBy_perm (l : list A) : Permutation (sortBy sortKey l) l.
Proof.
  induction l as [|x l IH]; simpl; [constructor|].
  rewrite insertBy_perm. now constructor.
Qed.

Lemma sortBy_In (l : list A) (x : A) : In x (sortBy sortKey l) <-> In x l.
Proof.
  split; apply Permutation_in;
    [apply sortBy_perm | apply Permutation_sym, sortBy_perm].
Qed.

Lemma insertBy_sorted (x : A) (l : list A) :
  StronglySorted (ascending sortKey) l -> StronglySorted (ascending sortKey) (insertBy sortKey x l).
Proof.
  induction 1 as [|y l Hs IH Hy]; simpl.
  - repeat constructor.
  - destruct (N.leb_spec (sortKey x) (sortKey y)) as [Hle|Hgt].
    + constructor; [now constructor|].
      constructor; [exact Hle|].
      eapply Forall_impl; [|exact Hy].
      unfold ascending; intros; lia.
    + constructor; [exact IH|].
      apply Forall_forall. intros z Hz.
      apply (Permutation_in _ (insertBy_perm x l)) in Hz.
      destruct Hz as [<-|Hz]; [unfold ascending; lia|].
      rewrite Forall_forall in Hy. now apply Hy.
Qed.

Lemma sortBy_sorted (l : list A) : StronglySorted (ascending sortKey) (sortBy sortKey l).
Proof.
  induction l as [|x l IH]; simpl; [constructor|].
  now apply insertBy_sorted.
Qed.

End ListFacts.

Section ExceptionFacts.

Context {A B : Type}.

Lemma mapM_Ok_map (f : A -> result B) (g : A -> B) (l : list A) :
  (forall x, In x l -> f x = Ok (g x)) -> mapM f l = Ok (map g l).
Proof.
  induction l as [|x l IH]; intros H; simpl; [reflexivity|].
  rewrite (H x (or_introl eq_refl)); simpl.
  rewrite IH; [reflexivity|]. intros y Hy. apply H. now right.
Qed.

Lemma mapM_Forall2 (f : A -> result B) (l : list A) (l' : list B) :
  mapM f l = Ok l' -> Forall2 (fun x y => f x = Ok y) l l'.
Proof.
  revert l'; induction l as [|x l IH]; intros l' H; simpl in H.
  - inversion H. constructor.
  - destruct (f x) as [y|] eqn:Hx; simpl in H; [|discriminate].
    destruct (mapM f l) as [ys|] eqn:Hl; simpl in H; [|discriminate].
    inversion H; subst. constructor; [exact Hx|]. now apply IH.
Qed.

Lemma mapM_throws (f : A -> result B) (l : list A) (x : A) :
  In x l -> f x = TypeError -> mapM f l = TypeError.
Proof.
  induction l as [|y l IH]; intros Hin Hx; [contradiction|].
  simpl. destruct Hin as [->|Hin].
  - now rewrite Hx.
  - destruct (f y); simpl; [|reflexivity]. now rewrite IH.
Qed.

End ExceptionFacts.

(* ------------------------------------------------------------------ *)
(** ** Read receipts *)

Section ReadReceipts.

Variable p : Props.

Lemma unreadFromPeer_true (r : Message) :
  unreadFromPeer (conversationId p) (user p) r = true <->
  conversation_id r = conversationId p /\ sender_id r <> user p
  /\ is_read r = false.
Proof.
  unfold unreadFromPeer.
  rewrite !andb_true_iff, !negb_true_iff, str_eqb_eq, str_eqb_neq.
  tauto.
Qed.

(** C9.  Entering a conversation sends one write, the bulk update of
    [markMessagesAsRead].  On the database it marks read exactly the
    rows of this conversation that another user sent and that were unread,
    changing nothing else in them; rows of the current user, rows already
    read and rows of other conversations are left as they were, and so are
    the other tables. *)
Theorem markMessagesAsRead_exact (now : Time) (fresh : str) (db : DB) :
  filter isWrite (mountEffect p) = [MarkRead (conversationId p) (user p)]
  /\ markMessagesAsRead p = [MarkRead (conversationId p) (user p)]
  /\ typingT (execAll now fresh (markMessagesAsRead p) db) = typingT db
  /\ conversationsT (execAll now fresh (markMessagesAsRead p) db)
     = conversationsT db
  /\ List.length (messagesT (execAll now fresh (markMessagesAsRead p) db))
     = List.length (messagesT db)
  /\ forall i r,
       nth_error (messagesT db) i = Some r ->
       (conversation_id r = conversationId p /\ sender_id r <> user p
        /\ is_read r = false ->
        exists r',
          nth_error (messagesT (execAll now fresh (markMessagesAsRead p) db)) i
          = Some r' /\ markedFrom r r')
       /\ (conversation_id r <> conversationId p \/ sender_id r = user p
           \/ is_read r = true ->
           nth_error (messagesT (execAll now fresh (markMessagesAsRead p) db)) i
           = Some r).
Proof.
  repeat split; simpl.
  - now rewrite length_map.
  - intros Hunread. rewrite nth_error_map, H; simpl.
    apply unreadFromPeer_true in Hunread. rewrite Hunread.
    eexists; split; [reflexivity|]. repeat split.
  - intros Hother. rewrite nth_error_map, H; simpl.
    destruct (unreadFromPeer (conversationId p) (user p) r) eqn:E;
      [|reflexivity].
    apply unreadFromPeer_true in E. destruct E as (Hc & Hs & Hr).
    destruct Hother as [Ho|[Ho|Ho]]; congruence.
Qed.

End ReadReceipts.

(* ------------------------------------------------------------------ *)
(** ** Updates by identifier and their echo *)

Section Updates.

Variable p : Props.

Lemma hasId_true (mid : str) (r : Message) : hasId mid r = true <-> id r = mid.
Proof. apply str_eqb_eq. Qed.

Lemma hasId_false (mid : str) (r : Message) :
  hasId mid r = false <-> id r <> mid.
Proof. apply str_eqb_neq. Qed.

Lemma filter_keeps_all {A} (f : A -> bool) (l : list A) :
  Forall (fun x => f x = true) l -> filter f l = l.
Proof.
  induction 1 as [|x l Hx _ IH]; simpl; [reflexivity|].
  now rewrite Hx, IH.
Qed.

Lemma updateMessages_nth (pr : Message -> bool) (f : Message -> Message)
    (db : DB) (i : nat) (x : Message) :
  nth_error (messagesT db) i = Some x ->
  nth_error (messagesT (fst (updateMessages pr f db))) i
  = Some (if pr x then f x else x).
Proof. intros H. simpl. now rewrite nth_error_map, H. Qed.

(** The only row with a given identifier. *)
Lemma sole_row (mid : str) (rows : list Message) (r x : Message) :
  filter (hasId mid) rows = [r] -> In x rows -> id x = mid -> x = r.
Proof.
  intros Hf Hin Hid.
  assert (Hx : In x (filter (hasId mid) rows))
    by (apply filter_In; split; [exact Hin | now apply hasId_true]).
  rewrite Hf in Hx. destruct Hx as [->|[]]. reflexivity.
Qed.

Lemma sole_row_id (mid : str) (rows : list Message) (r : Message) :
  filter (hasId mid) rows = [r] -> id r = mid.
Proof.
  intros Hf. apply hasId_true.
  assert (Hr : In r (filter (hasId mid) rows)) by (rewrite Hf; now left).
  now apply filter_In in Hr.
Qed.

(** An update by identifier of a row of the page's conversation comes back
    to the page as one UPDATE notification. *)
Lemma commit_update (now : Time) (fresh : str) (q : Request)
    (f : Message -> Message) (mid : str) (db : DB) (st : State) (r : Message) :
  exec now fresh q db = updateMessages (hasId mid) f db ->
  filter (hasId mid) (messagesT db) = [r] ->
  conversation_id (f r) = conversationId p ->
  commit p now fresh q (db, st)
  = (fst (updateMessages (hasId mid) f db), onUpdate (f r) st).
Proof.
  intros Hq Hr Hc. unfold commit. simpl fst. rewrite Hq.
  unfold updateMessages at 1. rewrite Hr. simpl.
  rewrite Hc, str_eqb_refl. reflexivity.
Qed.

Lemma onUpdate_nth (u : Message) (st : State) (i : nat) (x : Message) :
  nth_error (messages st) i = Some x ->
  nth_error (messages (onUpdate u st)) i
  = Some (if str_eqb (id x) (id u) then u else x).
Proof. intros H. simpl. now rewrite nth_error_map, H. Qed.

Lemma onUpdate_length (u : Message) (st : State) :
  List.length (messages (onUpdate u st)) = List.length (messages st).
Proof. simpl. apply length_map. Qed.

Lemma onUpdate_ids (u : Message) (st : State) :
  map id (messages (onUpdate u st)) = map id (messages st).
Proof.
  simpl. rewrite map_map. apply map_ext. intros x.
  destruct (str_eqb (id x) (id u)) eqn:E; [|reflexivity].
  symmetry. now apply str_eqb_eq.
Qed.

(** C5.  The owner's edit of a message, committed with a non-blank draft:
    one update leaves; in the database the message's record gets the
    draft as content and a non-null edit timestamp and keeps every other
    field, its creation timestamp among them, and every other record is
    untouched; the page, merging the echo, puts the new record exactly where
    the old one stood and keeps the length and order of its sequence. *)
Theorem edit_commit_in_place (now serverNow : Time) (fresh : str) (db : DB)
    (st : State) (m r : Message) (draft : str) :
  In m (messages st) ->
  sender_id m = user p ->
  id m <> [] ->
  isSending st = false ->
  trim draft <> [] ->
  filter (hasId (id m)) (messagesT db) = [r] ->
  conversation_id r = conversationId p ->
  let st1 := setNewMessage draft (handleEditMessage m st) in
  let q := UpdateContent (id m) draft now in
  let w := commit p serverNow fresh q (db, setIsSending true st1) in
  isOwnMessage (renderMessage p (messages st) m) = true
  /\ handleSendMessage p now st1 = (setIsSending true st1, [q], Some AwaitUpdate)
  /\ exists r',
       editedFrom draft now r r'
       /\ created_at r' = created_at r
       /\ edited_at r' <> None
       /\ (forall i x, nth_error (messagesT db) i = Some x ->
             nth_error (messagesT (fst w)) i
             = Some (if str_eqb (id x) (id m) then r' else x))
       /\ (forall i x, nth_error (messages st) i = Some x ->
             nth_error (messages (snd w)) i
             = Some (if str_eqb (id x) (id m) then r' else x))
       /\ List.length (messages (snd w)) = List.length (messages st)
       /\ map id (messages (snd w)) = map id (messages st).
Proof.
  intros Hin Hown Hid Hidle Hdraft Hrow Hconv st1 q w.
  split; [simpl; rewrite Hown; apply str_eqb_refl|].
  split.
  - unfold handleSendMessage. subst st1. simpl.
    rewrite Hidle, orb_false_r.
    destruct (trim draft) as [|c rest]; [congruence|]. simpl.
    unfold editing. simpl.
    destruct (id m) as [|c' rest']; [congruence|]. reflexivity.
  - exists (setContent draft now r).
    assert (Hw : w = (fst (updateMessages (hasId (id m)) (setContent draft now) db),
                      onUpdate (setContent draft now r) (setIsSending true st1))).
    { subst w q. apply commit_update; [reflexivity|exact Hrow|exact Hconv]. }
    assert (Hrid : id r = id m) by (eapply sole_row_id; exact Hrow).
    rewrite Hw. cbn [fst snd].
    split; [repeat split|]. split; [reflexivity|]. split; [discriminate|].
    split; [|split; [|split]].
    + intros i x Hx. rewrite (updateMessages_nth _ _ _ _ _ Hx).
      unfold hasId. destruct (str_eqb (id x) (id m)) eqn:E; [|reflexivity].
      apply str_eqb_eq in E.
      rewrite (sole_row _ _ _ _ Hrow (nth_error_In _ _ Hx) E). reflexivity.
    + intros i x Hx.
      rewrite (onUpdate_nth _ (setIsSending true st1) i x Hx).
      simpl. rewrite Hrid. reflexivity.
    + exact (onUpdate_length (setContent draft now r) (setIsSending true st1)).
    + exact (onUpdate_ids (setContent draft now r) (setIsSending true st1)).
Qed.

End Updates.

Lemma edit_commit_in_place_witness :
  (In Examples.m1 (messages Examples.shown)
   /\ sender_id Examples.m1 = user Examples.room
   /\ id Examples.m1 <> []
   /\ isSending Examples.shown = false
   /\ trim (lit " hi there") <> []
   /\ filter (hasId (id Examples.m1)) (messagesT Examples.db0) = [Examples.m1]
   /\ conversation_id Examples.m1 = conversationId Examples.room)
  /\ handleSendMessage Examples.room 40
       (setNewMessage (lit " hi there")
          (handleEditMessage Examples.m1 Examples.shown))
     = (setIsSending true
          (setNewMessage (lit " hi there")
             (handleEditMessage Examples.m1 Examples.shown)),
        [UpdateContent (id Examples.m1) (lit " hi there") 40],
        Some AwaitUpdate).
Proof.
  assert (H1 : In Examples.m1 (messages Examples.shown)) by (left; reflexivity).
  assert (H3 : id Examples.m1 <> []) by discriminate.
  assert (H5 : trim (lit " hi there") <> []) by (vm_compute; discriminate).
  split; [repeat split; assumption|].
  exact (proj1 (proj2 (edit_commit_in_place Examples.room 40 41 []
                         Examples.db0 Examples.shown Examples.m1 Examples.m1
                         (lit " hi there")
                         H1 eq_refl H3 eq_refl H5 eq_refl eq_refl))).
Defined.

(** The edited message stays first of three on the page. *)
Example edit_keeps_position :
  map (fun x => (id x, content x, edited_at x, created_at x))
      (messages
         (snd (commit Examples.room 41 []
                 (UpdateContent (lit "m1") (lit " hi there") 40)
                 (Examples.db0, Examples.shown))))
  = [(lit "m1", lit " hi there", Some 40, 10);
     (lit "m2", lit "hello", None, 20);
     (lit "m3", lit "bye", None, 30)].
Proof. reflexivity. Qed.

(* ------------------------------------------------------------------ *)
(** ** Initial load and deletion *)

Section Load.

Variable p : Props.

Lemma normalizeMessage_Ok (x y : Message) :
  normalizeMessage x = Ok y ->
  exists r, normalizeReactions (reactions x) = Ok r /\ y = setReactions r x.
Proof.
  unfold normalizeMessage.
  destruct (normalizeReactions (reactions x)) as [r|]; simpl;
    [|discriminate].
  intros H; inversion H. now exists r.
Qed.

Lemma normalized_ids (l l' : list Message) :
  mapM normalizeMessage l = Ok l' -> map id l' = map id l.
Proof.
  intros H. apply mapM_Forall2 in H.
  induction H as [|x y l l' Hxy _ IH]; simpl; [reflexivity|].
  apply normalizeMessage_Ok in Hxy as (r & _ & ->). simpl. now rewrite IH.
Qed.

(** What an initial load can end in. *)
Lemma initialLoad_cases (db : DB) (st : State) :
  (exists msgs,
      mapM normalizeMessage (selectMessages (conversationId p) db) = Ok msgs
      /\ initialLoad p db st = (setMessages msgs st, []))
  \/ (mapM normalizeMessage (selectMessages (conversationId p) db) = TypeError
      /\ initialLoad p db st = (st, loadFailed)).
Proof.
  unfold initialLoad, fetchMessages_resume. simpl.
  destruct (mapM normalizeMessage (selectMessages (conversationId p) db))
    as [msgs|]; [left; now exists msgs | right; now split].
Qed.

Lemma selectMessages_In (db : DB) (x : Message) :
  In x (selectMessages (conversationId p) db) <->
  In x (messagesT db) /\ conversation_id x = conversationId p
  /\ is_deleted x = false.
Proof.
  unfold selectMessages.
  rewrite sortBy_In, filter_In, andb_true_iff, negb_true_iff, str_eqb_eq.
  tauto.
Qed.

(** C6.  Deleting a message of the page's sequence: the request sets the
    deleted flag and the deletion timestamp on the record of that message
    and touches no other record; the page, without any notification
    merged, drops exactly that entry and keeps the others in their order;
    and neither the query of a later initial load nor the sequence a newly
    opened page ends up with contains the message. *)
Theorem handleDeleteMessage_removes (now serverNow : Time) (fresh : str)
    (db : DB) (st : State) (pre post : list Message) (m : Message) :
  messages st = pre ++ m :: post ->
  Forall (fun x => id x <> id m) (pre ++ post) ->
  let db' := execAll serverNow fresh (handleDeleteMessage now (id m)) db in
  (forall i r, nth_error (messagesT db) i = Some r ->
     (id r = id m ->
      exists r', nth_error (messagesT db') i = Some r' /\ deletedFrom now r r')
     /\ (id r <> id m -> nth_error (messagesT db') i = Some r))
  /\ messages (fst (handleDeleteMessage_resume (id m) st)) = pre ++ post
  /\ (forall x, In x (selectMessages (conversationId p) db') -> id x <> id m)
  /\ (forall x, In x (messages (fst (initialLoad p db' initialState))) ->
        id x <> id m).
Proof.
  intros Hst Huniq db'.
  assert (Hsel : forall x, In x (selectMessages (conversationId p) db') ->
                           id x <> id m).
  { intros x Hx. apply selectMessages_In in Hx as (Hin & _ & Hlive).
    subst db'. simpl in Hin. apply in_map_iff in Hin as (r & Hr & _).
    destruct (hasId (id m) r) eqn:E.
    - subst x. discriminate.
    - subst x. now apply hasId_false. }
  split; [|split; [|split; [exact Hsel|]]].
  - intros i r Hr. subst db'. simpl.
    rewrite nth_error_map, Hr. simpl. split.
    + intros E. apply hasId_true in E. rewrite E.
      eexists; split; [reflexivity|]. repeat split.
    + intros E. apply hasId_false in E. now rewrite E.
  - simpl. rewrite Hst, filter_app. simpl.
    rewrite str_eqb_refl. simpl. rewrite <- filter_app.
    apply filter_keeps_all.
    eapply Forall_impl; [|exact Huniq].
    intros x Hx. simpl in Hx. now apply negb_true_iff, str_eqb_neq.
  - intros x Hx.
    destruct (initialLoad_cases db' initialState)
      as [(msgs & Hm & Hload) | (_ & Hload)];
      rewrite Hload in Hx; simpl in Hx; [|contradiction].
    apply (in_map id) in Hx. rewrite (normalized_ids _ _ Hm) in Hx.
    apply in_map_iff in Hx as (y & Hy & Hin). rewrite <- Hy.
    now apply Hsel.
Qed.

End Load.

Lemma handleDeleteMessage_removes_witness :
  (messages Examples.shown = [Examples.m1] ++ Examples.m2 :: [Examples.m3]
   /\ Forall (fun x => id x <> id Examples.m2) ([Examples.m1] ++ [Examples.m3]))
  /\ messages (fst (handleDeleteMessage_resume (id Examples.m2) Examples.shown))
     = [Examples.m1] ++ [Examples.m3].
Proof.
  assert (H2 : Forall (fun x => id x <> id Examples.m2)
                      ([Examples.m1] ++ [Examples.m3]))
    by (repeat constructor; discriminate).
  split; [split; [reflexivity | exact H2]|].
  exact (proj1 (proj2 (handleDeleteMessage_removes Examples.room 40 41 []
                         Examples.db0 Examples.shown
                         [Examples.m1] [Examples.m3] Examples.m2
                         eq_refl H2))).
Defined.

(* ------------------------------------------------------------------ *)
(** ** Reactions *)

Section Reactions.

Variable p : Props.

Lemma findM_none_all {A} (q : A -> result bool) (l : list A) :
  findM q l = Ok None -> Forall (fun x => q x = Ok false) l.
Proof.
  induction l as [|x l IH]; simpl; intros H; [constructor|].
  destruct (q x) as [[|]|] eqn:E; simpl in H; try discriminate.
  constructor; [exact E | now apply IH].
Qed.

Lemma findM_last {A} (q : A -> result bool) (l : list A) (y : A) :
  Forall (fun x => q x = Ok false) l -> q y = Ok true ->
  findM q (l ++ [y]) = Ok (Some y).
Proof.
  intros Hl Hy. induction Hl as [|x l Hx _ IH]; simpl.
  - now rewrite Hy.
  - now rewrite Hx.
Qed.

Lemma filterM_drop_last {A} (q : A -> result bool) (l : list A) (y : A) :
  Forall (fun x => q x = Ok false) l -> q y = Ok true ->
  filterM (fun r => bind (q r) (fun b => Ok (negb b))) (l ++ [y]) = Ok l.
Proof.
  intros Hl Hy. induction Hl as [|x l Hx _ IH]; simpl.
  - now rewrite Hy.
  - rewrite Hx. simpl. now rewrite IH.
Qed.

Lemma newReaction_is_own (emoji who : str) :
  isReactionOf emoji who (newReaction emoji who) = Ok true.
Proof.
  unfold isReactionOf, newReaction. simpl.
  now rewrite !str_eqb_refl.
Qed.

(** The first toggle of a user who has not reacted with [emoji] appends
    one entry of count 1. *)
Lemma toggled_react (emoji who : str) (rs : list json) :
  findM (isReactionOf emoji who) rs = Ok None ->
  toggled emoji who (JArr rs) = Ok (JArr (rs ++ [newReaction emoji who])).
Proof. intros H. unfold toggled. simpl. now rewrite H. Qed.

(** The toggle that follows takes that entry out again. *)
Lemma toggled_unreact (emoji who : str) (rs : list json) :
  findM (isReactionOf emoji who) rs = Ok None ->
  toggled emoji who (JArr (rs ++ [newReaction emoji who])) = Ok (JArr rs).
Proof.
  intros H. apply findM_none_all in H. unfold toggled. simpl.
  rewrite (findM_last _ _ _ H (newReaction_is_own emoji who)). simpl.
  now rewrite (filterM_drop_last _ _ _ H (newReaction_is_own emoji who)).
Qed.

Lemma find_after_update (mid : str) (u : Message) (l : list Message) :
  id u = mid ->
  find (hasId mid)
       (map (fun x => if str_eqb (id x) (id u) then u else x) l)
  = option_map (fun _ => u) (find (hasId mid) l).
Proof.
  intros <-. induction l as [|x l IH]; simpl; [reflexivity|].
  unfold hasId in *.
  destruct (str_eqb (id x) (id u)) eqn:E; simpl.
  - now rewrite str_eqb_refl.
  - rewrite E. exact IH.
Qed.

Lemma sole_row_after_update (mid : str) (f : Message -> Message)
    (db : DB) (r : Message) :
  (forall x, id (f x) = id x) ->
  filter (hasId mid) (messagesT db) = [r] ->
  filter (hasId mid) (messagesT (fst (updateMessages (hasId mid) f db)))
  = [f r].
Proof.
  intros Hf. simpl. generalize (messagesT db) as rows.
  induction rows as [|x rows IH]; simpl; [discriminate|].
  destruct (hasId mid x) eqn:E.
  - intros H. inversion H as [[Hx Hrest]]. subst x.
    unfold hasId at 1. rewrite Hf. fold (hasId mid r). rewrite E.
    f_equal.
    clear - Hrest. induction rows as [|y rows IH]; simpl in *; [reflexivity|].
    destruct (hasId mid y) eqn:Ey; [discriminate|].
    rewrite Ey. now apply IH.
  - intros H. rewrite E. now apply IH.
Qed.

(** C4.  React, then unreact.  A user who has not reacted to a message with
    [emoji] toggles that reaction; the write reaches the database and comes
    back to the page; the user toggles again.  The first toggle writes the
    collection with one entry appended, the second writes the collection
    the message had before the first toggle, and after it both the page's
    copy and the database record carry that collection again. *)
Theorem handleReaction_react_then_unreact (t1 t2 : Time) (fresh : str)
    (db : DB) (st : State) (mid emoji : str) (m r : Message)
    (rs : list json) :
  find (hasId mid) (messages st) = Some m ->
  reactions m = JArr rs ->
  findM (isReactionOf emoji (user p)) rs = Ok None ->
  filter (hasId mid) (messagesT db) = [r] ->
  conversation_id r = conversationId p ->
  let q1 := UpdateReactions mid (JArr (rs ++ [newReaction emoji (user p)])) in
  let w1 := commit p t1 fresh q1 (db, st) in
  let q2 := UpdateReactions mid (reactions m) in
  let w2 := commit p t2 fresh q2 w1 in
  handleReaction p mid emoji st = ([q1], [])
  /\ handleReaction p mid emoji (snd w1) = ([q2], [])
  /\ (exists m2, find (hasId mid) (messages (snd w2)) = Some m2
                 /\ reactions m2 = reactions m)
  /\ (forall x, In x (messagesT (fst w2)) -> id x = mid ->
                reactions x = reactions m).
Proof.
  intros Hfind Hrs Hnone Hrow Hconv q1 w1 q2 w2.
  assert (Hrid : id r = mid) by (eapply sole_row_id; exact Hrow).
  set (v1 := JArr (rs ++ [newReaction emoji (user p)])) in *.
  assert (Hw1 : w1 = (fst (updateMessages (hasId mid) (setReactions v1) db),
                      onUpdate (setReactions v1 r) st)).
  { subst w1 q1. apply commit_update; [reflexivity | exact Hrow | exact Hconv]. }
  assert (Hrow1 : filter (hasId mid) (messagesT (fst w1)) = [setReactions v1 r]).
  { rewrite Hw1. cbn [fst]. now apply sole_row_after_update. }
  assert (Hw2 : w2 = (fst (updateMessages (hasId mid)
                             (setReactions (reactions m)) (fst w1)),
                      onUpdate (setReactions (reactions m) (setReactions v1 r))
                               (snd w1))).
  { subst w2 q2. destruct w1 as [db1 st1]. cbn [fst snd] in *.
    apply commit_update; [reflexivity | exact Hrow1 | exact Hconv]. }
  assert (Hf1 : find (hasId mid) (messages (snd w1)) = Some (setReactions v1 r)).
  { rewrite Hw1. cbn [snd]. unfold onUpdate. cbn [messages setMessages].
    rewrite (find_after_update mid (setReactions v1 r) _ Hrid), Hfind.
    reflexivity. }
  split; [|split; [|split]].
  - unfold handleReaction. rewrite Hfind, Hrs.
    now rewrite (toggled_react _ _ _ Hnone).
  - unfold handleReaction. rewrite Hf1. simpl reactions. unfold v1.
    rewrite (toggled_unreact _ _ _ Hnone). subst q2. now rewrite Hrs.
  - exists (setReactions (reactions m) (setReactions v1 r)).
    split; [|reflexivity].
    rewrite Hw2. cbn [snd]. unfold onUpdate at 1. cbn [messages setMessages].
    rewrite (find_after_update mid
               (setReactions (reactions m) (setReactions v1 r)) _ Hrid), Hf1.
    reflexivity.
  - intros x Hx Hid. rewrite Hw2 in Hx. cbn [fst] in Hx.
    assert (Hrow2 := sole_row_after_update mid (setReactions (reactions m))
                       (fst w1) _ (fun y => eq_refl) Hrow1).
    rewrite (sole_row _ _ _ _ Hrow2 Hx Hid). reflexivity.
Qed.

End Reactions.

Lemma handleReaction_react_then_unreact_witness :
  (find (hasId (lit "m2")) (messages Examples.likedShown) = Some Examples.m2liked
   /\ reactions Examples.m2liked
      = JArr [newReaction Examples.thumbsUp Examples.bob]
   /\ findM (isReactionOf Examples.thumbsUp (user Examples.room))
            [newReaction Examples.thumbsUp Examples.bob] = Ok None
   /\ filter (hasId (lit "m2")) (messagesT Examples.likedDb)
      = [Examples.m2liked]
   /\ conversation_id Examples.m2liked = conversationId Examples.room)
  /\ handleReaction Examples.room (lit "m2") Examples.thumbsUp
       Examples.likedShown
     = ([UpdateReactions (lit "m2")
           (JArr ([newReaction Examples.thumbsUp Examples.bob]
                  ++ [newReaction Examples.thumbsUp (user Examples.room)]))],
        []).
Proof.
  split; [repeat split|].
  exact (proj1 (handleReaction_react_then_unreact Examples.room 40 50 []
                  Examples.likedDb Examples.likedShown (lit "m2")
                  Examples.thumbsUp Examples.m2liked Examples.m2liked
                  [newReaction Examples.thumbsUp Examples.bob]
                  eq_refl eq_refl eq_refl eq_refl eq_refl)).
Defined.

(** Alice's thumbs-up next to Bob's, and gone again. *)
Example react_then_unreact_run :
  let w1 := commit Examples.room 40 []
              (UpdateReactions (lit "m2")
                 (JArr [newReaction Examples.thumbsUp Examples.bob;
                        newReaction Examples.thumbsUp Examples.alice]))
              (Examples.likedDb, Examples.likedShown) in
  handleReaction Examples.room (lit "m2") Examples.thumbsUp (snd w1)
  = ([UpdateReactions (lit "m2")
        (JArr [newReaction Examples.thumbsUp Examples.bob])], []).
Proof. reflexivity. Qed.

(* ------------------------------------------------------------------ *)
(** ** Typing indicator *)

Section Typing.

Variable p : Props.

Lemma filter_none {A} (f : A -> bool) (l : list A) :
  Forall (fun x => f x = false) l -> filter f l = [].
Proof.
  induction 1 as [|x l Hx _ IH]; simpl; [reflexivity|]. now rewrite Hx.
Qed.

Lemma existsb_false_filter {A} (f : A -> bool) (l : list A) :
  existsb f l = false -> filter f l = [].
Proof.
  induction l as [|x l IH]; simpl; [reflexivity|].
  intros H. apply orb_false_iff in H as [Hx Hl]. rewrite Hx. now apply IH.
Qed.

Lemma filter_after_removal {A} (f : A -> bool) (l : list A) :
  filter f (filter (fun x => negb (f x)) l) = [].
Proof.
  apply filter_none, Forall_forall. intros x Hx.
  apply filter_In in Hx as [_ Hx]. now apply negb_true_iff.
Qed.

(** The timer the ref points at is the only one that can be pending, so
    clearing it empties the table. *)
Lemma cleared_pending (st : State) (ts : Timers) :
  timersOwned st ts ->
  pending (match typingTimeoutRef st with
           | Some h => clearTimeout h ts
           | None => ts
           end) = [].
Proof.
  intros Hown. destruct (typingTimeoutRef st) as [h|] eqn:E.
  - simpl. apply filter_none, Forall_forall. intros t Ht.
    specialize (Hown t Ht). rewrite E in Hown. injection Hown as ->.
    now rewrite Pos.eqb_refl.
  - destruct (pending ts) as [|t rest] eqn:Ep; [reflexivity|].
    specialize (Hown t). rewrite Ep, E in Hown.
    discriminate (Hown (or_introl eq_refl)).
Qed.

Lemma cleared_nextHandle (st : State) (ts : Timers) :
  nextHandle (match typingTimeoutRef st with
              | Some h => clearTimeout h ts
              | None => ts
              end) = nextHandle ts.
Proof. now destruct (typingTimeoutRef st). Qed.

Lemma keystroke_eq (t0 : Time) (st : State) (ts : Timers) (db : DB) :
  timersOwned st ts ->
  keystroke p t0 (st, ts, db)
  = (setTypingTimeoutRef (Some (nextHandle ts)) st,
     {| nextHandle := Pos.succ (nextHandle ts);
        pending := [{| handle := nextHandle ts; due := t0 + 3000;
                       timerConversation := conversationId p;
                       timerUser := user p |}] |},
     {| messagesT := messagesT db;
        typingT := upsertTyping (conversationId p) (user p) t0 (typingT db);
        conversationsT := conversationsT db |}).
Proof.
  intros Hown. unfold keystroke, handleTyping, setTimeout.
  rewrite (cleared_pending _ _ Hown), cleared_nextHandle. reflexivity.
Qed.

(** The first upsert of a pair creates its row. *)
Lemma upsertTyping_first (conv who : str) (t : Time)
    (rows : list TypingIndicator) :
  existsb (sameTyping conv who) rows = false ->
  filter (sameTyping conv who) (upsertTyping conv who t rows)
  = [{| ti_conversation_id := conv; ti_user_id := who; started_at := t |}].
Proof.
  intros E. unfold upsertTyping. rewrite E.
  rewrite filter_app, (existsb_false_filter _ _ E). simpl.
  unfold sameTyping. simpl. now rewrite !str_eqb_refl.
Qed.

(** An upsert for a pair that has a row is rejected: nothing changes,
    the stamp of the row included. *)
Lemma upsertTyping_rejected (conv who : str) (t : Time)
    (rows : list TypingIndicator) :
  existsb (sameTyping conv who) rows = true ->
  upsertTyping conv who t rows = rows.
Proof. intros E. unfold upsertTyping. now rewrite E. Qed.

Lemma keystroke_db (t0 : Time) (st : State) (ts : Timers) (db : DB) :
  snd (keystroke p t0 (st, ts, db))
  = fst (exec t0 [] (UpsertTyping (conversationId p) (user p) t0) db).
Proof. reflexivity. Qed.

Lemma timersOwned_initial : timersOwned initialState noTimers.
Proof. intros t []. Qed.

Lemma timersOwned_keystroke (t0 : Time) (st : State) (ts : Timers) (db : DB) :
  timersOwned st ts ->
  timersOwned (fst (fst (keystroke p t0 (st, ts, db))))
              (snd (fst (keystroke p t0 (st, ts, db)))).
Proof.
  intros Hown. rewrite (keystroke_eq _ _ _ _ Hown). cbn [fst snd].
  intros t [<-|[]]. reflexivity.
Qed.

Lemma timersOwned_elapse (t : Time) (st : State) (ts : Timers) (db : DB) :
  timersOwned st ts ->
  timersOwned (fst (fst (elapse t (st, ts, db))))
              (snd (fst (elapse t (st, ts, db)))).
Proof.
  intros Hown x Hx. simpl in Hx. apply filter_In in Hx as [Hx _].
  now apply Hown.
Qed.

Lemma sameTyping_true (conv who : str) (r : TypingIndicator) :
  sameTyping conv who r = true <->
  ti_conversation_id r = conv /\ ti_user_id r = who.
Proof.
  unfold sameTyping. now rewrite andb_true_iff, !str_eqb_eq.
Qed.

Lemma typingUnique_exec_upsert (conv who : str) (t now : Time) (fresh : str)
    (db : DB) :
  typingUnique db ->
  typingUnique (fst (exec now fresh (UpsertTyping conv who t) db)).
Proof.
  intros Hu c u. unfold typingRows. simpl. unfold upsertTyping.
  destruct (existsb (sameTyping conv who) (typingT db)) eqn:E; [apply Hu|].
  rewrite filter_app. simpl.
  destruct (sameTyping c u {| ti_conversation_id := conv; ti_user_id := who;
                              started_at := t |}) eqn:Es.
  - apply sameTyping_true in Es as [<- <-]. simpl.
    rewrite (existsb_false_filter _ _ E). simpl. lia.
  - rewrite app_nil_r. apply Hu.
Qed.

Lemma filter_filter_length {A} (f g : A -> bool) (l : list A) :
  (List.length (filter f (filter g l)) <= List.length (filter f l))%nat.
Proof.
  induction l as [|x l IH]; simpl; [lia|].
  destruct (g x); simpl; destruct (f x); simpl; lia.
Qed.

Lemma typingUnique_exec_delete (conv who : str) (now : Time) (fresh : str)
    (db : DB) :
  typingUnique db ->
  typingUnique (fst (exec now fresh (DeleteTyping conv who) db)).
Proof.
  intros Hu c u. unfold typingRows, deleteTyping. simpl.
  eapply Nat.le_trans; [apply filter_filter_length | apply Hu].
Qed.

(** Timers that run only delete: a pair without a row stays without. *)
Lemma fired_keep_absent (conv who : str) (now : Time) (fired : list Timer)
    (db : DB) :
  typingRows conv who db = [] ->
  typingRows conv who
    (execAll now []
       (map (fun t => DeleteTyping (timerConversation t) (timerUser t)) fired)
       db) = [].
Proof.
  revert db. induction fired as [|t fired IH]; intros db Hdb; [exact Hdb|].
  simpl. apply IH. unfold typingRows, deleteTyping in *. simpl.
  apply length_zero_iff_nil.
  pose proof (filter_filter_length (sameTyping conv who)
                (fun r => negb (sameTyping (timerConversation t)
                                           (timerUser t) r))
                (typingT db)) as Hle.
  rewrite Hdb in Hle. simpl in Hle. lia.
Qed.

(** Once the timer of a pair has run, the pair has no row. *)
Lemma fired_clear (conv who : str) (now : Time) (fired : list Timer)
    (tm : Timer) (db : DB) :
  In tm fired ->
  timerConversation tm = conv -> timerUser tm = who ->
  typingRows conv who
    (execAll now []
       (map (fun t => DeleteTyping (timerConversation t) (timerUser t)) fired)
       db) = [].
Proof.
  intros Hin Hc Hw. revert db.
  induction fired as [|t fired IH]; intros db; [contradiction|].
  destruct Hin as [->|Hin]; [|simpl; now apply IH].
  simpl. apply fired_keep_absent. rewrite Hc, Hw.
  unfold typingRows, deleteTyping. simpl. apply filter_after_removal.
Qed.

(** X23.  What holds of every keystroke, whatever timers are pending
    and whatever the table holds: one upsert stamped with the time of the
    keystroke is sent, and once 3 seconds have passed without another
    keystroke the pair has no typing row. *)
Theorem keystroke_then_idle_clears (t0 t : Time) (w : State * Timers * DB) :
  t0 + 3000 <= t ->
  snd (handleTyping p t0 (fst (fst w)) (snd (fst w)))
  = [UpsertTyping (conversationId p) (user p) t0]
  /\ typingRows (conversationId p) (user p)
       (snd (elapse t (keystroke p t0 w))) = [].
Proof.
  intros Ht. destruct w as [[st ts] db]. split; [reflexivity|].
  unfold keystroke, handleTyping, setTimeout, elapse, fire. cbn [fst snd].
  apply (fired_clear _ _ _ _
           {| handle := nextHandle
                          (match typingTimeoutRef st with
                           | Some h => clearTimeout h ts
                           | None => ts
                           end);
              due := t0 + 3000;
              timerConversation := conversationId p;
              timerUser := user p |}); [|reflexivity|reflexivity].
  apply sortBy_In, filter_In. split.
  - cbn [pending]. apply in_or_app. right. now left.
  - cbn [due]. now apply N.leb_le.
Qed.

End Typing.

(** Along every run the table keeps at most one typing row per pair. *)
Lemma typingRun_invariant (w : State * Timers * DB) :
  TypingRun w -> typingUnique (snd w).
Proof.
  induction 1 as [db Hu | q now [[st ts] db] _ Hu
                 | now [[st ts] db] _ Hu | [[st ts] db] _ Hu];
    cbn [fst snd] in *.
  - exact Hu.
  - rewrite keystroke_db.
    exact (typingUnique_exec_upsert (conversationId q) (user q) now now []
             db Hu).
  - unfold elapse, fire. cbn [snd].
    generalize (sortBy due (filter (fun t => due t <=? now) (pending ts))).
    intros fired. revert db Hu.
    induction fired as [|t fired IH]; intros db Hu; simpl; [exact Hu|].
    apply IH.
    exact (typingUnique_exec_delete (timerConversation t) (timerUser t)
             now [] db Hu).
  - exact Hu.
Qed.

(** C8, evaluated.  On a page opened in a fresh tab Alice types at 0 ms
    and again at 1000 ms.  The second keystroke sends an upsert stamped
    1000, but the pair already has a row and the statement is rejected:
    the row keeps the stamp 0.  The timer of the first keystroke is
    cancelled and the row goes at 4000 ms.  If instead Alice leaves the
    page after the first keystroke, reopens it and types at 2000 ms, the
    new mount's ref holds no timer: the timer due at 3000 ms is not
    cancelled, stays pending beside the new one due at 5000 ms, and deletes
    the row at 3000 ms, one second after the keystroke. *)
Theorem handleTyping_repeat_keeps_old_stamp :
  let w1 := keystroke Examples.room 0
              (initialState, noTimers, Examples.db0) in
  let w2 := keystroke Examples.room 1000 w1 in
  let w3 := keystroke Examples.room 2000 (reopen w1) in
  typingT (snd w1)
  = [{| ti_conversation_id := lit "c1"; ti_user_id := Examples.alice;
        started_at := 0 |}]
  /\ snd (handleTyping Examples.room 1000 (fst (fst w1)) (snd (fst w1)))
     = [UpsertTyping (lit "c1") Examples.alice 1000]
  /\ typingT (snd w2)
     = [{| ti_conversation_id := lit "c1"; ti_user_id := Examples.alice;
           started_at := 0 |}]
  /\ map due (pending (snd (fst w2))) = [4000]
  /\ typingT (snd (elapse 3999 w2)) = typingT (snd w2)
  /\ typingT (snd (elapse 4000 w2)) = []
  /\ map due (pending (snd (fst w3))) = [3000; 5000]
  /\ typingT (snd (elapse 2999 w3)) = typingT (snd w1)
  /\ typingT (snd (elapse 3000 w3)) = [].
Proof. repeat split. Qed.

Lemma keystroke_then_idle_clears_witness :
  0 + 3000 <= 3000
  /\ typingRows (lit "c1") Examples.alice
       (snd (elapse 3000
               (keystroke Examples.room 0
                  (initialState, noTimers, Examples.db0)))) = [].
Proof.
  assert (H : 0 + 3000 <= 3000) by lia.
  split; [exact H|].
  exact (proj2 (keystroke_then_idle_clears Examples.room 0 3000
                  (initialState, noTimers, Examples.db0) H)).
Defined.

(* ------------------------------------------------------------------ *)
(** ** The realtime merge and the soft-delete flag *)

Section Merge.

Variable p : Props.

(** The update handler never takes a card away, whatever the flags of
    the row it receives. *)
Lemma onUpdate_keeps_cards (updated : Message) (st : State) :
  map key (render p (subscribeToMessages (UPDATE updated) st))
  = map key (render p st).
Proof.
  unfold render. rewrite !map_map. simpl.
  rewrite map_map. apply map_ext. intros x. simpl.
  destruct (str_eqb (id x) (id updated)) eqn:E; [|reflexivity].
  symmetry. now apply str_eqb_eq.
Qed.

(** The insert handler does look at the flag. *)
Lemma onInsert_skips_deleted (newMsg : Message) (st : State) :
  is_deleted newMsg = true ->
  subscribeToMessages (INSERT newMsg) st = st.
Proof. intros H. simpl. unfold onInsert. now rewrite H. Qed.

End Merge.

(** C1, evaluated.  Alice soft-deletes the first message while Bob's
    page shows the conversation.  The update reaches Bob's page with the
    deleted flag set; the merge stores the flagged row in place and the
    page goes on rendering its card, text included. *)
Theorem update_with_deleted_flag_still_rendered :
  let w := commit Examples.roomOfBob 41 []
             (SoftDelete (lit "m1") 40) (Examples.db0, Examples.shown) in
  deliver (lit "c1")
          (snd (exec 41 [] (SoftDelete (lit "m1") 40) Examples.db0))
  = [UPDATE (setDeleted 40 Examples.m1)]
  /\ map (fun m => (id m, is_deleted m)) (messages (snd w))
     = [(lit "m1", true); (lit "m2", false); (lit "m3", false)]
  /\ map (fun b => (key b, text b)) (render Examples.roomOfBob (snd w))
     = [(lit "m1", lit "hi"); (lit "m2", lit "hello"); (lit "m3", lit "bye")].
Proof. repeat split. Qed.

(* ------------------------------------------------------------------ *)
(** ** What the initial load puts on the page *)

Section Normalisation.

Variable p : Props.

Lemma normalizeReaction_null : normalizeReaction JNull = TypeError.
Proof. reflexivity. Qed.

Lemma normalizeReaction_coerced (r : json) :
  r <> JNull -> normalizeReaction r = Ok (coerced r).
Proof. destruct r; intros H; [congruence| reflexivity ..]. Qed.

Lemma normalizeReactions_coerced (v : json) :
  noNullEntry v -> normalizeReactions v = Ok (coercedAll v).
Proof.
  destruct v as [| | | |items|]; simpl; try reflexivity.
  intros Hnn. rewrite (mapM_Ok_map normalizeReaction coerced); [reflexivity|].
  intros r Hr. apply normalizeReaction_coerced. intros ->. now apply Hnn.
Qed.

Lemma sorted_map_same_key (f : Message -> Message) (l : list Message) :
  (forall x, created_at (f x) = created_at x) ->
  StronglySorted (ascending created_at) l ->
  StronglySorted (ascending created_at) (map f l).
Proof.
  intros Hf. induction 1 as [|x l _ IH Hx]; simpl; constructor.
  - exact IH.
  - apply Forall_forall. intros y Hy.
    apply in_map_iff in Hy as (z & <- & Hz).
    rewrite Forall_forall in Hx. unfold ascending.
    rewrite !Hf. now apply Hx.
Qed.

(** Where no stored collection holds a [null] entry, the initial load is
    the one described: the non-deleted rows of the conversation, in
    ascending order of creation, each with its reactions coerced, put in
    place of whatever the page held. *)
Lemma initialLoad_replaces (db : DB) (st : State) :
  (forall r, In r (selectMessages (conversationId p) db) ->
             noNullEntry (reactions r)) ->
  let loaded := map (fun r => setReactions (coercedAll (reactions r)) r)
                    (selectMessages (conversationId p) db) in
  initialLoad p db st = (setMessages loaded st, [])
  /\ messages (fst (initialLoad p db st))
     = messages (fst (initialLoad p db initialState))
  /\ StronglySorted (ascending created_at) loaded
  /\ (forall m, In m loaded ->
        is_deleted m = false /\ conversation_id m = conversationId p)
  /\ (forall r, In r (messagesT db) ->
        conversation_id r = conversationId p -> is_deleted r = false ->
        In (setReactions (coercedAll (reactions r)) r) loaded).
Proof.
  intros Hnn loaded.
  assert (Hmap : mapM normalizeMessage (selectMessages (conversationId p) db)
                 = Ok loaded).
  { apply mapM_Ok_map. intros r Hr. unfold normalizeMessage.
    now rewrite (normalizeReactions_coerced _ (Hnn r Hr)). }
  assert (Hload : forall s, initialLoad p db s = (setMessages loaded s, [])).
  { intros s. unfold initialLoad, fetchMessages_resume. simpl.
    now rewrite Hmap. }
  split; [apply Hload|]. split; [now rewrite !Hload|].
  split; [|split].
  - apply sorted_map_same_key; [reflexivity|]. apply sortBy_sorted.
  - intros m Hm. apply in_map_iff in Hm as (r & <- & Hr).
    apply selectMessages_In in Hr as (_ & Hc & Hd). now split.
  - intros r Hr Hc Hd.
    apply (in_map (fun x => setReactions (coercedAll (reactions x)) x)).
    apply selectMessages_In. now repeat split.
Qed.

End Normalisation.

(** C2, evaluated.  One stored message of the conversation has a [null]
    among its reactions.  The query returns it, the mapping throws on the
    entry instead of coercing it, and the load ends in the error
    notification with the page's sequence not replaced. *)
Theorem initialLoad_null_entry_fails :
  selectMessages (lit "c1") Examples.brokenDb
  = [Examples.m1; Examples.m2broken; Examples.m3]
  /\ normalizeReactions (reactions Examples.m2broken) = TypeError
  /\ initialLoad Examples.room Examples.brokenDb initialState
     = (initialState, loadFailed)
  /\ initialLoad Examples.room Examples.brokenDb Examples.shown
     = (Examples.shown, loadFailed).
Proof. repeat split. Qed.

(* ------------------------------------------------------------------ *)
(** ** Starting a conversation *)

Section StartChat.

Import OnlineUsers.

Lemma between_sym (a b : str) (c : Conversation) :
  between a b c = between b a c.
Proof. unfold between. apply orb_comm. Qed.

(** One conversation between the two, in either order: it is reused and
    nothing is inserted. *)
Lemma startChat_reuses_the_single (now : Time) (fresh u other : str)
    (db : DB) (c : Conversation) :
  findConversation u other db = [c] ->
  startChat now fresh u other db
  = (db, [FindConversation u other], Navigate (conv_id c)).
Proof. intros H. unfold startChat. now rewrite H. Qed.

(** None: a row is inserted. *)
Lemma startChat_creates_when_none (now : Time) (fresh u other : str)
    (db : DB) :
  findConversation u other db = [] ->
  snd (fst (startChat now fresh u other db))
  = [FindConversation u other; InsertConversation u other]
  /\ snd (startChat now fresh u other db) = Navigate fresh.
Proof. intros H. unfold startChat. now rewrite H. Qed.

(** Two or more: the lookup answers with an error, and a further row is
    inserted. *)
Lemma startChat_inserts_when_several (now : Time) (fresh u other : str)
    (db : DB) (c1 c2 : Conversation) (rest : list Conversation) :
  findConversation u other db = c1 :: c2 :: rest ->
  snd (fst (startChat now fresh u other db))
  = [FindConversation u other; InsertConversation u other]
  /\ snd (startChat now fresh u other db) = Navigate fresh.
Proof. intros H. unfold startChat. now rewrite H. Qed.

End StartChat.

(** C7, evaluated.  Alice and Bob already have two conversations, one per
    participant order.  Alice starts a chat with Bob: the lookup matches
    both rows, [maybeSingle] yields no data, and the handler inserts a
    third conversation and opens it instead of reusing an existing one. *)
Theorem handleStartChat_inserts_despite_existing :
  map conv_id (findConversation Examples.alice Examples.bob Examples.twoRooms)
  = [lit "c1"; lit "c2"]
  /\ data (maybeSingle
             (findConversation Examples.alice Examples.bob Examples.twoRooms))
     = None
  /\ snd (fst (OnlineUsers.startChat 50 (lit "c3")
                 Examples.alice Examples.bob Examples.twoRooms))
     = [FindConversation Examples.alice Examples.bob;
        InsertConversation Examples.alice Examples.bob]
  /\ map conv_id
         (conversationsT
            (fst (fst (OnlineUsers.startChat 50 (lit "c3")
                         Examples.alice Examples.bob Examples.twoRooms))))
     = [lit "c1"; lit "c2"; lit "c3"]
  /\ snd (OnlineUsers.startChat 50 (lit "c3")
            Examples.alice Examples.bob Examples.twoRooms)
     = OnlineUsers.Navigate (lit "c3").
Proof. repeat split. Qed.

(* ================================================================== *)
(** * Further properties of the chat page *)

Import Runs.

(* ------------------------------------------------------------------ *)
(** ** A submission from call to return *)

Section SendRuns.

Variable p : Props.

Lemma handleSendMessage_accepted (now : Time) (st : State) :
  trim (newMessage st) <> [] ->
  isSending st = false ->
  handleSendMessage p now st =
    match editing st with
    | Some mid =>
        (setIsSending true st, [UpdateContent mid (newMessage st) now],
         Some AwaitUpdate)
    | None =>
        (setIsSending true st,
         [InsertMessage (conversationId p) (user p) (newMessage st)
                        (lit "text") (replyParent st)],
         Some AwaitInsert)
    end.
Proof.
  intros Hdraft Hidle. unfold handleSendMessage.
  rewrite Hidle, orb_false_r.
  destruct (trim (newMessage st)); [congruence | reflexivity].
Qed.

Lemma setIsSending_restore (st : State) :
  isSending st = false -> setIsSending false (setIsSending true st) = st.
Proof. destruct st; simpl; intros ->; reflexivity. Qed.

Lemma editing_nonempty (st : State) (mid : str) :
  editing st = Some mid -> mid <> [].
Proof.
  unfold editing. destruct (editingMessageId st) as [m|]; [|discriminate].
  destruct m; simpl; [discriminate|]. intros H; inversion H. discriminate.
Qed.

(** X1.  An accepted new message reaches every page that shows its
    conversation, the sender's own included, as exactly one entry appended
    at the tail, carrying the draft, the sender and the reply target; a page
    showing another conversation is left as it is; and the conversation's
    last-message time becomes the time of the insert. *)
Theorem send_reaches_subscribers (peer : Props) (now serverNow : Time)
    (fresh : str) (db : DB) (st loc : State) :
  trim (newMessage st) <> [] ->
  isSending st = false ->
  editing st = None ->
  let row := newRow fresh serverNow (conversationId p) (user p)
               (newMessage st) (lit "text") (replyParent st) in
  forall q, In q (snd (fst (handleSendMessage p now st))) ->
    let w := commit peer serverNow fresh q (db, loc) in
    (conversationId peer = conversationId p ->
       messages (snd w) = messages loc ++ [row])
    /\ (conversationId peer <> conversationId p ->
          messages (snd w) = messages loc)
    /\ messagesT (fst w) = messagesT db ++ [row]
    /\ (forall c, In c (conversationsT (fst w)) ->
          conv_id c = conversationId p -> last_message_at c = serverNow).
Proof.
  intros Hdraft Hidle Hedit row q Hq.
  rewrite (handleSendMessage_accepted now st Hdraft Hidle), Hedit in Hq.
  destruct Hq as [<-|[]]. unfold commit. cbn [fst snd exec].
  fold row. unfold deliver. cbn [filter payload]. subst row.
  cbn [conversation_id newRow]. repeat split.
  - intros ->. rewrite str_eqb_refl. reflexivity.
  - intros Hne. apply not_eq_sym in Hne. apply str_eqb_neq in Hne.
    rewrite Hne. reflexivity.
  - intros c Hc Hid. unfold touchConversation in Hc.
    apply in_map_iff in Hc as (c0 & <- & _).
    destruct (str_eqb (conv_id c0) (conversationId p)) eqn:E;
      [reflexivity|].
    apply str_eqb_neq in E. contradiction.
Qed.

(** X2.  A submission on an idle page, run to its end.  It always leaves
    the page idle again and never touches the message sequence (the
    sender's own message only arrives as a notification).  A blank draft
    changes nothing; a failed insert leaves the draft, the reply target
    and everything else as they were and reports the failure; an edit or
    a successful insert clears the draft and the reply target, leaves
    edit mode, and ends by clearing the user's typing row. *)
Theorem runSend_lifecycle (now : Time) (insertFails : bool) (st : State) :
  isSending st = false ->
  isSending (fst (fst (runSend p now insertFails st))) = false
  /\ messages (fst (fst (runSend p now insertFails st))) = messages st
  /\ (trim (newMessage st) = [] -> runSend p now insertFails st = (st, [], []))
  /\ (trim (newMessage st) <> [] -> editing st = None -> insertFails = true ->
        runSend p now insertFails st
        = (st,
           [InsertMessage (conversationId p) (user p) (newMessage st)
                          (lit "text") (replyParent st)],
           sendFailed))
  /\ (trim (newMessage st) <> [] ->
      editing st <> None \/ insertFails = false ->
        exists write,
          runSend p now insertFails st
          = (setReplyingTo None
               (setNewMessage []
                  (match editing st with
                   | Some _ => setEditingMessageId None st
                   | None => st
                   end)),
             [write; DeleteTyping (conversationId p) (user p)],
             [])).
Proof.
  intros Hidle.
  assert (Hblank : trim (newMessage st) = [] ->
                   runSend p now insertFails st = (st, [], [])).
  { intros Hb. unfold runSend, handleSendMessage. now rewrite Hb. }
  assert (Hfail : trim (newMessage st) <> [] -> editing st = None ->
                  insertFails = true ->
                  runSend p now insertFails st
                  = (st,
                     [InsertMessage (conversationId p) (user p)
                        (newMessage st) (lit "text") (replyParent st)],
                     sendFailed)).
  { intros Hd He ->. unfold runSend.
    rewrite (handleSendMessage_accepted now st Hd Hidle), He. simpl.
    now rewrite (setIsSending_restore st Hidle). }
  assert (Hdone : trim (newMessage st) <> [] ->
                  editing st <> None \/ insertFails = false ->
                  exists write,
                    runSend p now insertFails st
                    = (setReplyingTo None
                         (setNewMessage []
                            (match editing st with
                             | Some _ => setEditingMessageId None st
                             | None => st
                             end)),
                       [write; DeleteTyping (conversationId p) (user p)],
                       [])).
  { intros Hd Hcase. unfold runSend.
    rewrite (handleSendMessage_accepted now st Hd Hidle).
    destruct (editing st) as [mid|] eqn:He.
    - eexists. simpl. clear - Hidle.
      destruct st as [ms nm sending em rt tr]; simpl in Hidle;
        subst sending; reflexivity.
    - destruct Hcase as [Hc| ->]; [congruence|].
      eexists. simpl. clear - Hidle.
      destruct st as [ms nm sending em rt tr]; simpl in Hidle;
        subst sending; reflexivity. }
  assert (Hrun : runSend p now insertFails st = (st, [], [])
                 \/ runSend p now insertFails st
                    = (st,
                       [InsertMessage (conversationId p) (user p)
                          (newMessage st) (lit "text") (replyParent st)],
                       sendFailed)
                 \/ exists write,
                      runSend p now insertFails st
                      = (setReplyingTo None
                           (setNewMessage []
                              (match editing st with
                               | Some _ => setEditingMessageId None st
                               | None => st
                               end)),
                         [write; DeleteTyping (conversationId p) (user p)],
                         [])).
  { assert (Ht : trim (newMessage st) = [] \/ trim (newMessage st) <> [])
      by (destruct (trim (newMessage st));
          [left; reflexivity | right; discriminate]).
    assert (He : editing st = None \/ editing st <> None)
      by (destruct (editing st); [right; discriminate | left; reflexivity]).
    destruct Ht as [Ht|Ht]; [left; now apply Hblank|].
    destruct He as [He|He]; [|right; right; apply Hdone; auto].
    destruct insertFails; [right; left; now apply Hfail|].
    right; right; apply Hdone; auto. }
  split; [|split; [|split; [exact Hblank | split; [exact Hfail | exact Hdone]]]].
  - destruct Hrun as [-> | [-> | [w ->]]]; try exact Hidle.
    cbn [fst]. now destruct (editing st).
  - destruct Hrun as [-> | [-> | [w ->]]]; try reflexivity.
    cbn [fst]. now destruct (editing st).
Qed.

(** X3.  Whatever the state of the page, a request that
    [handleSendMessage] sends is an insert into this conversation in the
    user's name, of type text and with content that is not blank, or an
    update of a message with a non-empty identifier to content that is not
    blank. *)
Theorem handleSendMessage_never_blank (now : Time) (st : State) :
  Forall
    (fun q =>
       match q with
       | InsertMessage conv sender c mtype _ =>
           trim c <> [] /\ conv = conversationId p /\ sender = user p
           /\ mtype = lit "text"
       | UpdateContent mid c _ => trim c <> [] /\ mid <> []
       | _ => False
       end)
    (snd (fst (handleSendMessage p now st))).
Proof.
  unfold handleSendMessage.
  destruct (negb (truthy_str (trim (newMessage st))) || isSending st) eqn:G;
    simpl; [constructor|].
  apply orb_false_iff in G as [G _]. apply negb_false_iff in G.
  assert (Hd : trim (newMessage st) <> [])
    by (intros E; rewrite E in G; discriminate).
  destruct (editing st) as [mid|] eqn:He; simpl;
    (constructor; [|constructor]).
  - split; [exact Hd | now apply (editing_nonempty st)].
  - repeat split. exact Hd.
Qed.

(** X4.  The requests of a completed edit or successful send, executed
    in order, leave no typing row of the user in the conversation; those of
    a send whose insert failed leave the typing rows as they were. *)
Theorem runSend_clears_typing (now serverNow : Time) (fresh : str)
    (insertFails : bool) (st : State) (db : DB) :
  isSending st = false ->
  trim (newMessage st) <> [] ->
  let db' := execAll serverNow fresh
               (snd (fst (runSend p now insertFails st))) db in
  (editing st <> None \/ insertFails = false ->
     typingRows (conversationId p) (user p) db' = [])
  /\ (editing st = None -> insertFails = true -> typingT db' = typingT db).
Proof.
  intros Hidle Hd db'. subst db'. unfold runSend.
  rewrite (handleSendMessage_accepted now st Hd Hidle). split.
  - intros Hcase. destruct (editing st) as [mid|] eqn:He.
    + simpl. unfold typingRows, deleteTyping. simpl.
      apply filter_after_removal.
    + destruct Hcase as [Hc| ->]; [congruence|].
      simpl. unfold typingRows, deleteTyping. simpl.
      apply filter_after_removal.
  - intros -> ->. reflexivity.
Qed.

End SendRuns.

Lemma send_reaches_subscribers_witness :
  (trim (newMessage Examples.paddedDraft) <> []
   /\ isSending Examples.paddedDraft = false
   /\ editing Examples.paddedDraft = None)
  /\ messages
       (snd (commit Examples.roomOfBob 41 (lit "m9")
               (InsertMessage (lit "c1") Examples.alice (lit "  hello ")
                              (lit "text") None)
               (Examples.db0, Examples.shown)))
     = messages Examples.shown
       ++ [newRow (lit "m9") 41 (lit "c1") Examples.alice (lit "  hello ")
                  (lit "text") None].
Proof.
  assert (H1 : trim (newMessage Examples.paddedDraft) <> [])
    by (vm_compute; discriminate).
  split; [repeat split; exact H1|].
  exact (proj1 (send_reaches_subscribers Examples.room Examples.roomOfBob
                  40 41 (lit "m9") Examples.db0 Examples.paddedDraft
                  Examples.shown H1 eq_refl eq_refl _ (or_introl eq_refl))
               eq_refl).
Defined.

Lemma runSend_lifecycle_witness :
  isSending Samples.replying = false
  /\ isSending (fst (fst (runSend Examples.room 40 true Samples.replying)))
     = false.
Proof.
  split; [reflexivity|].
  exact (proj1 (runSend_lifecycle Examples.room 40 true Samples.replying
                  eq_refl)).
Defined.

(** A failed reply keeps its draft and target; a successful one clears
    both. *)
Example reply_failed_then_sent :
  runSend Examples.room 40 true Samples.replying
  = (Samples.replying,
     [InsertMessage (lit "c1") Examples.alice (lit " ok ") (lit "text")
                    (Some (lit "m2"))],
     sendFailed)
  /\ fst (fst (runSend Examples.room 41 false Samples.replying))
     = Examples.shown.
Proof. split; reflexivity. Qed.

Lemma runSend_clears_typing_witness :
  (isSending Samples.replying = false
   /\ trim (newMessage Samples.replying) <> [])
  /\ typingRows (lit "c1") Examples.alice
       (execAll 41 (lit "m9")
          (snd (fst (runSend Examples.room 40 false Samples.replying)))
          Examples.db0) = [].
Proof.
  assert (H2 : trim (newMessage Samples.replying) <> [])
    by (vm_compute; discriminate).
  split; [split; [reflexivity | exact H2]|].
  exact (proj1 (runSend_clears_typing Examples.room 40 41 (lit "m9") false
                  Samples.replying Examples.db0 eq_refl H2)
               (or_intror eq_refl)).
Defined.

(* ------------------------------------------------------------------ *)
(** ** Pinning, deleting and read receipts through the echo *)

Section Echoes.

Variable p : Props.

Lemma find_some_in (mid : str) (l : list Message) (m : Message) :
  find (hasId mid) l = Some m -> In m l /\ id m = mid.
Proof.
  intros H. apply find_some in H as [Hin Hid].
  split; [exact Hin | now apply hasId_true].
Qed.

(** X5.  Pinning through the echo.  [handlePinMessage] itself changes
    nothing on the page; once its update has come back, every entry of
    that message is the stored record with the flag flipped, all other
    entries stand where they stood, and a message that was not pinned
    has its text in the pinned strip. *)
Theorem pin_shows_in_strip (now : Time) (fresh : str) (db : DB) (st : State)
    (mid : str) (m r : Message) :
  find (hasId mid) (messages st) = Some m ->
  filter (hasId mid) (messagesT db) = [r] ->
  conversation_id r = conversationId p ->
  forall q, In q (handlePinMessage mid (is_pinned m)) ->
    let w := commit p now fresh q (db, st) in
    (forall i x, nth_error (messages st) i = Some x ->
       nth_error (messages (snd w)) i
       = Some (if str_eqb (id x) mid
               then setPinned (negb (is_pinned m)) r else x))
    /\ (is_pinned m = false -> In (content r) (pinnedStrip (snd w)))
    /\ (is_pinned m = true ->
          forall x, In x (messages (snd w)) -> id x = mid ->
                    is_pinned x = false).
Proof.
  intros Hfind Hrow Hconv q [<-|[]] w.
  assert (Hrid : id r = mid) by (eapply sole_row_id; exact Hrow).
  assert (Hw : w = (fst (updateMessages (hasId mid)
                           (setPinned (negb (is_pinned m))) db),
                    onUpdate (setPinned (negb (is_pinned m)) r) st)).
  { subst w. apply commit_update; [reflexivity | exact Hrow | exact Hconv]. }
  rewrite Hw. cbn [snd]. split; [|split].
  - intros i x Hx. rewrite (onUpdate_nth _ st i x Hx). simpl.
    now rewrite Hrid.
  - intros Hb. rewrite Hb. unfold pinnedStrip.
    apply (in_map content _ (setPinned (negb false) r)).
    apply filter_In. split; [|reflexivity].
    apply find_some_in in Hfind as [Hin Hm]. simpl.
    apply in_map_iff. exists m. split; [|exact Hin].
    rewrite Hm, Hrid. now rewrite str_eqb_refl.
  - intros Hb x Hx Hid. simpl in Hx. apply in_map_iff in Hx as (y & Hy & _).
    rewrite Hrid in Hy. destruct (str_eqb (id y) mid) eqn:E.
    + subst x. simpl. now rewrite Hb.
    + subst x. apply str_eqb_neq in E. contradiction.
Qed.

(** X6.  Pin and unpin: when the stored records of a message carry the
    flag the page showed, the two toggles the page sends one after the
    other leave every table exactly as it was. *)
Theorem pin_twice_restores (now1 now2 : Time) (fresh : str) (db : DB)
    (mid : str) (b : bool) :
  (forall r, In r (messagesT db) -> id r = mid -> is_pinned r = b) ->
  execAll now2 fresh (handlePinMessage mid (negb b))
          (execAll now1 fresh (handlePinMessage mid b) db)
  = db.
Proof.
  intros Hsync. destruct db as [rows typing convs]. simpl in *.
  f_equal. rewrite map_map. rewrite <- (map_id rows) at 2.
  apply map_ext_in. intros r Hr.
  destruct (hasId mid r) eqn:E.
  - unfold hasId at 1. simpl. fold (hasId mid r). rewrite E.
    apply hasId_true in E. specialize (Hsync r Hr E).
    destruct r; simpl in *. subst. now rewrite negb_involutive.
  - now rewrite E.
Qed.

Lemma merge_foreign (cs : list Change) (l : list Message) :
  Forall (fun c => match c with
                   | UPDATE u => forall x, In x l -> id x <> id u
                   | INSERT _ => False
                   end) cs ->
  forall st, messages st = l -> messages (merge cs st) = l.
Proof.
  induction 1 as [|c cs Hc _ IH]; intros st Hst; [exact Hst|].
  unfold merge in *. simpl. apply IH.
  destruct c as [n|u]; [contradiction|]. simpl. rewrite Hst.
  rewrite <- (map_id l) at 2. apply map_ext_in. intros x Hx.
  specialize (Hc x Hx). apply str_eqb_neq in Hc. now rewrite Hc.
Qed.

(** X7.  A deleted message does not come back.  After the page has
    dropped a message, merging the notifications of that very delete,
    whatever the tables hold, leaves the page's sequence as it is, without
    any entry of that message. *)
Theorem delete_echo_keeps_removed (now serverNow : Time) (fresh : str)
    (db : DB) (st : State) (mid : str) :
  messages (snd (commit p serverNow fresh (SoftDelete mid now)
                   (db, fst (handleDeleteMessage_resume mid st))))
  = messages (fst (handleDeleteMessage_resume mid st))
  /\ handleDeleteMessage now mid = [SoftDelete mid now]
  /\ forall x,
       In x (messages (snd (commit p serverNow fresh (SoftDelete mid now)
                              (db, fst (handleDeleteMessage_resume mid st)))))
       -> id x <> mid.
Proof.
  assert (Hgone : forall x,
             In x (messages (fst (handleDeleteMessage_resume mid st))) ->
             id x <> mid).
  { intros x Hx. simpl in Hx. apply filter_In in Hx as [_ Hx].
    now apply negb_true_iff, str_eqb_neq in Hx. }
  assert (Hsame :
    messages (snd (commit p serverNow fresh (SoftDelete mid now)
                     (db, fst (handleDeleteMessage_resume mid st))))
    = messages (fst (handleDeleteMessage_resume mid st))).
  { unfold commit. cbn [fst snd exec updateMessages].
    apply merge_foreign; [|reflexivity].
    apply Forall_forall. intros c Hc. unfold deliver in Hc.
    apply filter_In in Hc as [Hc _].
    apply in_map_iff in Hc as (r & <- & Hr).
    apply filter_In in Hr as [_ Hr]. apply hasId_true in Hr.
    intros x Hx. simpl. rewrite Hr. now apply Hgone. }
  split; [exact Hsame|]. split; [reflexivity|].
  intros x Hx. rewrite Hsame in Hx. now apply Hgone.
Qed.

(** X8.  Marking read twice is marking read once: a second bulk update
    finds no row to change and publishes no notification. *)
Theorem markRead_idempotent (now1 now2 : Time) (fresh : str)
    (conv who : str) (db : DB) :
  exec now2 fresh (MarkRead conv who)
       (fst (exec now1 fresh (MarkRead conv who) db))
  = (fst (exec now1 fresh (MarkRead conv who) db), []).
Proof.
  assert (Hread : forall r, unreadFromPeer conv who (setRead r) = false).
  { intros r. unfold unreadFromPeer. simpl. apply andb_false_r. }
  assert (Hstep : forall r,
             unreadFromPeer conv who
               (if unreadFromPeer conv who r then setRead r else r) = false).
  { intros r. destruct (unreadFromPeer conv who r) eqn:E;
      [apply Hread | exact E]. }
  simpl. unfold updateMessages. simpl. f_equal.
  - f_equal. rewrite map_map. apply map_ext. intros r. now rewrite Hstep.
  - rewrite filter_none; [reflexivity|].
    apply Forall_forall. intros x Hx.
    apply in_map_iff in Hx as (r & <- & _). apply Hstep.
Qed.

End Echoes.

Lemma pin_shows_in_strip_witness :
  (find (hasId (lit "m2")) (messages Examples.shown) = Some Examples.m2
   /\ filter (hasId (lit "m2")) (messagesT Examples.db0) = [Examples.m2]
   /\ conversation_id Examples.m2 = conversationId Examples.roomOfBob
   /\ In (UpdatePinned (lit "m2") true)
         (handlePinMessage (lit "m2") (is_pinned Examples.m2)))
  /\ In (content Examples.m2)
        (pinnedStrip
           (snd (commit Examples.roomOfBob 41 []
                   (UpdatePinned (lit "m2") true)
                   (Examples.db0, Examples.shown)))).
Proof.
  split; [repeat split; now left|].
  exact (proj1 (proj2 (pin_shows_in_strip Examples.roomOfBob 41 []
                         Examples.db0 Examples.shown (lit "m2")
                         Examples.m2 Examples.m2
                         eq_refl eq_refl eq_refl _ (or_introl eq_refl)))
               eq_refl).
Defined.

Lemma pin_twice_restores_witness :
  (forall r, In r (messagesT Examples.db0) -> id r = lit "m2" ->
             is_pinned r = false)
  /\ execAll 42 [] (handlePinMessage (lit "m2") (negb false))
       (execAll 41 [] (handlePinMessage (lit "m2") false) Examples.db0)
     = Examples.db0.
Proof.
  assert (H : forall r, In r (messagesT Examples.db0) -> id r = lit "m2" ->
                        is_pinned r = false).
  { intros r [<-|[<-|[<-|[]]]] _; reflexivity. }
  split; [exact H|].
  exact (pin_twice_restores 41 42 [] Examples.db0 (lit "m2") false H).
Defined.

(* ------------------------------------------------------------------ *)
(** ** What a reaction toggle writes *)

Section Toggles.

Variable p : Props.

Lemma findM_some {A} (q : A -> result bool) (l : list A) (r : A) :
  findM q l = Ok (Some r) -> In r l /\ q r = Ok true.
Proof.
  induction l as [|x l IH]; simpl; [discriminate|].
  destruct (q x) as [[|]|] eqn:E; simpl; try discriminate.
  - intros H; inversion H; subst. split; [now left | exact E].
  - intros H. destruct (IH H). split; [now right | assumption].
Qed.

Lemma isReactionOf_true_record (emoji who : str) (r : json) :
  isReactionOf emoji who r = Ok true -> isRecord r = true.
Proof.
  destruct r; simpl; try discriminate; try reflexivity.
Qed.

Lemma isRecord_truthy (r : json) : isRecord r = true -> truthy r = true.
Proof. destruct r; simpl; congruence. Qed.

Lemma filterM_neg_Ok {A} (q : A -> result bool) (l kept : list A) :
  filterM (fun r => bind (q r) (fun b => Ok (negb b))) l = Ok kept ->
  kept = filter (fun x => negb (match q x with
                                | Ok b => b
                                | TypeError => false
                                end)) l.
Proof.
  revert kept. induction l as [|x l IH]; simpl; intros kept H.
  - now inversion H.
  - destruct (q x) as [b|]; simpl in H; [|discriminate].
    destruct (filterM _ l) as [ys|]; simpl in H; [|discriminate].
    inversion H; subst. rewrite (IH ys eq_refl). reflexivity.
Qed.

(** The two ways a toggle on an array can succeed. *)
Lemma toggled_Ok (emoji who : str) (rs : list json) (v : json) :
  toggled emoji who (JArr rs) = Ok v ->
  (findM (isReactionOf emoji who) rs = Ok None
   /\ v = JArr (rs ++ [newReaction emoji who]))
  \/ (exists r, findM (isReactionOf emoji who) rs = Ok (Some r)
                /\ v = JArr (filter (fun x => negb (ownReaction emoji who x))
                                    rs)).
Proof.
  unfold toggled. simpl.
  destruct (findM (isReactionOf emoji who) rs) as [[r|]|] eqn:Ef; simpl;
    [| |discriminate].
  - destruct (findM_some _ _ _ Ef) as [_ Hr].
    rewrite (isRecord_truthy _ (isReactionOf_true_record _ _ _ Hr)).
    destruct (filterM _ rs) as [kept|] eqn:Ek; simpl; [|discriminate].
    intros H; inversion H; subst. right. exists r. split; [reflexivity|].
    f_equal. exact (filterM_neg_Ok _ _ _ Ek).
  - intros H; inversion H. now left.
Qed.

Lemma ownReaction_new (emoji who : str) :
  ownReaction emoji who (newReaction emoji who) = true.
Proof. unfold ownReaction. now rewrite newReaction_is_own. Qed.

(** X9.  A toggle that goes through writes a collection in which the
    entries that are not this user's reaction with this emoji are the
    former ones, in their order, and in which the user has no such
    reaction left if there was at least one, and exactly one if there was
    none. *)
Theorem handleReaction_touches_only_own (mid emoji : str) (st : State)
    (m : Message) (rs : list json) (target : str) (v : json) :
  find (hasId mid) (messages st) = Some m ->
  reactions m = JArr rs ->
  In (UpdateReactions target v) (fst (handleReaction p mid emoji st)) ->
  target = mid
  /\ exists rs',
       v = JArr rs'
       /\ filter (fun x => negb (ownReaction emoji (user p) x)) rs'
          = filter (fun x => negb (ownReaction emoji (user p) x)) rs
       /\ List.length (filter (ownReaction emoji (user p)) rs')
          = (if existsb (ownReaction emoji (user p)) rs then 0 else 1)%nat.
Proof.
  intros Hfind Hrs Hreq. unfold handleReaction in Hreq.
  rewrite Hfind, Hrs in Hreq.
  destruct (toggled emoji (user p) (JArr rs)) as [v'|] eqn:Et;
    [|contradiction].
  destruct Hreq as [Hreq|[]]. inversion Hreq; subst. split; [reflexivity|].
  apply toggled_Ok in Et as [[Hnone ->] | (r & Hsome & ->)].
  - exists (rs ++ [newReaction emoji (user p)]). split; [reflexivity|].
    apply findM_none_all in Hnone.
    assert (Hno : Forall (fun x => ownReaction emoji (user p) x = false) rs).
    { eapply Forall_impl; [|exact Hnone]. intros x Hx. unfold ownReaction.
      now rewrite Hx. }
    rewrite !filter_app. simpl. rewrite ownReaction_new. simpl.
    rewrite app_nil_r, (filter_none _ _ Hno). split; [reflexivity|].
    assert (He : existsb (ownReaction emoji (user p)) rs = false).
    { clear - Hno. induction Hno as [|x l Hx _ IH]; simpl; [reflexivity|].
      now rewrite Hx. }
    now rewrite He.
  - eexists. split; [reflexivity|]. split.
    + apply filter_keeps_all, Forall_forall. intros x Hx.
      now apply filter_In in Hx.
    + rewrite filter_after_removal.
      destruct (findM_some _ _ _ Hsome) as [Hin Hr].
      assert (He : existsb (ownReaction emoji (user p)) rs = true).
      { apply existsb_exists. exists r. split; [exact Hin|].
        unfold ownReaction. now rewrite Hr. }
      now rewrite He.
Qed.

Lemma normalizeReaction_record (r r' : json) :
  normalizeReaction r = Ok r' -> isRecord r' = true.
Proof.
  destruct r; simpl; try discriminate; intros H; inversion H; reflexivity.
Qed.

Lemma normalizeReactions_records (v v' : json) :
  normalizeReactions v = Ok v' ->
  exists items, v' = JArr items /\ Forall (fun r => isRecord r = true) items.
Proof.
  destruct v as [| | | |l|]; simpl;
    try (intros H; inversion H; exists []; split; [reflexivity|constructor]).
  destruct (mapM normalizeReaction l) as [items|] eqn:E; simpl;
    [|discriminate].
  intros H; inversion H. exists items. split; [reflexivity|].
  apply mapM_Forall2 in E. clear - E.
  induction E as [|x y l l' Hxy _ IH]; constructor; [|exact IH].
  now apply (normalizeReaction_record x).
Qed.

Lemma isReactionOf_record (emoji who : str) (r : json) :
  isRecord r = true -> exists b, isReactionOf emoji who r = Ok b.
Proof.
  destruct r; simpl; try discriminate. intros _.
  unfold isReactionOf. simpl.
  destruct (strictEqStr _ emoji); simpl; eexists; reflexivity.
Qed.

Lemma toggled_records (emoji who : str) (items : list json) :
  Forall (fun r => isRecord r = true) items ->
  exists v, toggled emoji who (JArr items) = Ok v.
Proof.
  intros Hrec. unfold toggled. simpl.
  assert (Hfind : exists e, findM (isReactionOf emoji who) items = Ok e).
  { induction Hrec as [|x l Hx _ [e IH]]; simpl; [now exists None|].
    destruct (isReactionOf_record emoji who x Hx) as [[|] ->]; simpl;
      [now exists (Some x) | now exists e]. }
  destruct Hfind as [[r|] ->]; simpl; [|eexists; reflexivity].
  destruct (truthy r); [|eexists; reflexivity].
  assert (Hfilter : exists kept,
             filterM (fun r0 => bind (isReactionOf emoji who r0)
                                     (fun b => Ok (negb b))) items
             = Ok kept).
  { clear r. induction Hrec as [|x l Hx _ [kept IH]]; simpl;
      [now exists []|].
    destruct (isReactionOf_record emoji who x Hx) as [b ->]; simpl.
    rewrite IH. simpl. eexists; reflexivity. }
  destruct Hfilter as [kept ->]. simpl. eexists; reflexivity.
Qed.

(** X11.  The messages an initial load has put on the page can always be
    reacted to: for each of them and every emoji, [handleReaction] sends
    exactly one update of that message's reactions and logs no error. *)
Theorem loaded_messages_can_be_reacted_to (db : DB) (st st' : State)
    (m : Message) (emoji : str) :
  initialLoad p db st = (st', []) ->
  In m (messages st') ->
  exists v,
    handleReaction p (id m) emoji st' = ([UpdateReactions (id m) v], []).
Proof.
  intros Hload Hin.
  destruct (initialLoad_cases p db st)
    as [(msgs & Hm & Hl) | (_ & Hl)];
    rewrite Hl in Hload; [|discriminate].
  inversion Hload; subst st'. clear Hload Hl. simpl in Hin.
  unfold handleReaction. simpl messages.
  destruct (find (hasId (id m)) msgs) as [m'|] eqn:Ef.
  - apply find_some in Ef as [Hin' _].
    apply mapM_Forall2 in Hm.
    assert (Hrec : exists items, reactions m' = JArr items
                     /\ Forall (fun r => isRecord r = true) items).
    { clear - Hm Hin'. induction Hm as [|x y l l' Hxy _ IH];
        [contradiction|].
      destruct Hin' as [->|Hin']; [|now apply IH].
      apply normalizeMessage_Ok in Hxy as (r & Hr & ->). simpl.
      now apply (normalizeReactions_records (reactions x)). }
    destruct Hrec as (items & -> & Hrec).
    destruct (toggled_records emoji (user p) items Hrec) as [v ->].
    now exists v.
  - exfalso. apply (find_none _ _ Ef) in Hin.
    unfold hasId in Hin. now rewrite str_eqb_refl in Hin.
Qed.

End Toggles.

Lemma handleReaction_touches_only_own_witness :
  (find (hasId (lit "m2")) (messages Examples.likedShown)
   = Some Examples.m2liked
   /\ reactions Examples.m2liked
      = JArr [newReaction Examples.thumbsUp Examples.bob]
   /\ In (UpdateReactions (lit "m2") (JArr []))
         (fst (handleReaction Examples.roomOfBob (lit "m2")
                 Examples.thumbsUp Examples.likedShown)))
  /\ lit "m2" = lit "m2".
Proof.
  split; [repeat split; now left|].
  exact (proj1 (handleReaction_touches_only_own Examples.roomOfBob
                  (lit "m2") Examples.thumbsUp Examples.likedShown
                  Examples.m2liked
                  [newReaction Examples.thumbsUp Examples.bob]
                  (lit "m2") (JArr [])
                  eq_refl eq_refl (or_introl eq_refl))).
Defined.

Lemma loaded_messages_can_be_reacted_to_witness :
  (initialLoad Examples.room Examples.likedDb initialState
   = (fst (initialLoad Examples.room Examples.likedDb initialState), [])
   /\ In (setReactions (coercedAll (reactions Examples.m2liked))
                       Examples.m2liked)
         (messages (fst (initialLoad Examples.room Examples.likedDb
                           initialState))))
  /\ exists v,
       handleReaction Examples.room (lit "m2") Examples.thumbsUp
         (fst (initialLoad Examples.room Examples.likedDb initialState))
       = ([UpdateReactions (lit "m2") v], []).
Proof.
  assert (H2 : In (setReactions (coercedAll (reactions Examples.m2liked))
                                Examples.m2liked)
                  (messages (fst (initialLoad Examples.room Examples.likedDb
                                    initialState))))
    by (right; left; reflexivity).
  split; [split; [reflexivity | exact H2]|].
  exact (loaded_messages_can_be_reacted_to Examples.room Examples.likedDb
           initialState _ _ Examples.thumbsUp eq_refl H2).
Defined.

(* ------------------------------------------------------------------ *)
(** ** Normal form, reply previews and order *)

Section Sequence.

Variable p : Props.

Lemma orElse_again (x : option json) (d : json) :
  orElse (Some (orElse x d)) d = orElse x d.
Proof.
  destruct x as [v|]; simpl.
  - destruct (truthy v) eqn:E; [now rewrite E|]. now destruct (truthy d).
  - now destruct (truthy d).
Qed.

Lemma normalizeReaction_fixed (x y : json) :
  normalizeReaction x = Ok y -> normalizeReaction y = Ok y.
Proof.
  intros H.
  assert (Hx : x <> JNull) by (intros ->; discriminate).
  rewrite (normalizeReaction_coerced x Hx) in H. inversion H; subst y.
  unfold coerced, normalizeReaction. cbn -[orElse].
  now rewrite !orElse_again.
Qed.

(** X12.  The coercion of a reaction collection is a normal form: applied
    to its own result it succeeds and returns it unchanged, so a message
    that was loaded once loads to the same message again. *)
Theorem normalizeReactions_fixed (v v' : json) :
  normalizeReactions v = Ok v' -> normalizeReactions v' = Ok v'.
Proof.
  destruct v as [| | | |l|]; simpl;
    try (intros H; inversion H; reflexivity).
  destruct (mapM normalizeReaction l) as [items|] eqn:E; simpl;
    [|discriminate].
  intros H; inversion H; subst v'. simpl.
  apply mapM_Forall2 in E.
  assert (Hfix : mapM normalizeReaction items = Ok items).
  { clear - E. induction E as [|x y l l' Hxy _ IH]; simpl; [reflexivity|].
    now rewrite (normalizeReaction_fixed x y Hxy), IH. }
  now rewrite Hfix.
Qed.

Lemma find_after_removal (mid : str) (l : list Message) :
  find (hasId mid) (filter (fun msg => negb (str_eqb (id msg) mid)) l) = None.
Proof.
  induction l as [|x l IH]; simpl; [reflexivity|].
  destruct (str_eqb (id x) mid) eqn:E; simpl; [exact IH|].
  unfold hasId at 1. now rewrite E.
Qed.

(** X13.  A reply and its parent.  While the parent is in the page's
    sequence, the reply's card quotes the first 50 code units of the parent's
    text.  Once the parent has been deleted from the page, the reply is
    still in the sequence and still rendered, now without a quote. *)
Theorem reply_outlives_parent (st : State) (reply parent : Message)
    (pid : str) :
  In reply (messages st) ->
  parent_message_id reply = Some pid ->
  pid <> [] ->
  id reply <> pid ->
  find (hasId pid) (messages st) = Some parent ->
  replyPreview (renderMessage p (messages st) reply)
  = Some (firstn 50 (content parent))
  /\ In reply (messages (fst (handleDeleteMessage_resume pid st)))
  /\ In (renderMessage p
           (messages (fst (handleDeleteMessage_resume pid st))) reply)
        (render p (fst (handleDeleteMessage_resume pid st)))
  /\ replyPreview
       (renderMessage p
          (messages (fst (handleDeleteMessage_resume pid st))) reply)
     = None.
Proof.
  intros Hin Hparent Hpid Hne Hfind.
  assert (Hkept : In reply (messages (fst (handleDeleteMessage_resume pid st)))).
  { simpl. apply filter_In. split; [exact Hin|].
    now apply negb_true_iff, str_eqb_neq. }
  assert (Htruthy : truthy_str pid = true)
    by (destruct pid; [now contradiction Hpid | reflexivity]).
  split; [|split; [exact Hkept | split]].
  - simpl. now rewrite Hparent, Htruthy, Hfind.
  - unfold render. now apply in_map.
  - simpl. now rewrite Hparent, Htruthy, find_after_removal.
Qed.

Lemma sorted_snoc {A} (R : A -> A -> Prop) (l : list A) (n : A) :
  StronglySorted R l -> Forall (fun x => R x n) l ->
  StronglySorted R (l ++ [n]).
Proof.
  induction 1 as [|x l Hs IH Hx]; intros Hn; simpl.
  - repeat constructor.
  - inversion Hn as [|? ? Hxn Hln]; subst. constructor; [now apply IH|].
    apply Forall_app. split; [exact Hx | now constructor].
Qed.

Lemma sorted_snoc_inv {A} (R : A -> A -> Prop) (l : list A) (n : A) :
  StronglySorted R (l ++ [n]) -> Forall (fun x => R x n) l.
Proof.
  induction l as [|x l IH]; simpl; intros H; [constructor|].
  inversion H as [|? ? Hs Hx]; subst. constructor; [|now apply IH].
  apply Forall_app in Hx as [_ Hn]. now inversion Hn.
Qed.

Lemma sorted_map_in (f : Message -> Message) (l : list Message) :
  (forall x, In x l -> created_at (f x) = created_at x) ->
  StronglySorted (ascending created_at) l ->
  StronglySorted (ascending created_at) (map f l).
Proof.
  intros Hf Hs. induction Hs as [|x l _ IH Hx]; simpl; constructor.
  - apply IH. intros y Hy. apply Hf. now right.
  - apply Forall_forall. intros y Hy.
    apply in_map_iff in Hy as (z & <- & Hz).
    rewrite Forall_forall in Hx. unfold ascending.
    rewrite (Hf x (or_introl eq_refl)), (Hf z (or_intror Hz)).
    now apply Hx.
Qed.

(** X14.  The merge keeps the page's sequence in ascending order of
    creation as long as notifications respect it: an insert that is not
    older than any entry, an update that carries the creation time of the
    entries it replaces. *)
Theorem merge_keeps_order (c : Change) (st : State) :
  chronological st -> inOrder c st ->
  chronological (subscribeToMessages c st).
Proof.
  unfold chronological. intros Hs Hc. destruct c as [n|u]; simpl in *.
  - unfold onInsert. destruct (negb (is_deleted n)); [|exact Hs].
    simpl. apply sorted_snoc; [exact Hs|].
    apply Forall_forall. exact Hc.
  - apply sorted_map_in; [|exact Hs].
    intros x Hx. destruct (str_eqb (id x) (id u)) eqn:E; [|reflexivity].
    symmetry. apply Hc; [exact Hx | now apply str_eqb_eq].
Qed.

(** X15.  The merge does not sort.  An insert notification for a live
    message older than some entry of the page is appended all the same and
    leaves the sequence out of order. *)
Theorem late_insert_breaks_order (n x : Message) (st : State) :
  is_deleted n = false ->
  In x (messages st) ->
  (created_at n < created_at x)%N ->
  messages (subscribeToMessages (INSERT n) st) = messages st ++ [n]
  /\ ~ chronological (subscribeToMessages (INSERT n) st).
Proof.
  intros Hlive Hin Hlt.
  assert (Hm : messages (subscribeToMessages (INSERT n) st)
               = messages st ++ [n]).
  { simpl. unfold onInsert. now rewrite Hlive. }
  split; [exact Hm|]. unfold chronological. rewrite Hm. intros Hs.
  apply sorted_snoc_inv in Hs. rewrite Forall_forall in Hs.
  specialize (Hs x Hin). unfold ascending in Hs. lia.
Qed.

End Sequence.

Lemma normalizeReactions_fixed_witness :
  normalizeReactions (JArr [JObj [(lit "emoji", JStr Examples.thumbsUp)]])
  = Ok (JArr [JObj [(lit "emoji", JStr Examples.thumbsUp);
                    (lit "user_id", JStr []);
                    (lit "count", JNum 1)]])
  /\ normalizeReactions
       (JArr [JObj [(lit "emoji", JStr Examples.thumbsUp);
                    (lit "user_id", JStr []);
                    (lit "count", JNum 1)]])
     = Ok (JArr [JObj [(lit "emoji", JStr Examples.thumbsUp);
                       (lit "user_id", JStr []);
                       (lit "count", JNum 1)]]).
Proof.
  split; [reflexivity|].
  exact (normalizeReactions_fixed
           (JArr [JObj [(lit "emoji", JStr Examples.thumbsUp)]]) _ eq_refl).
Defined.

Lemma reply_outlives_parent_witness :
  (In Samples.reply (messages Samples.withReply)
   /\ parent_message_id Samples.reply = Some (lit "m2")
   /\ lit "m2" <> []
   /\ id Samples.reply <> lit "m2"
   /\ find (hasId (lit "m2")) (messages Samples.withReply)
      = Some Examples.m2)
  /\ replyPreview
       (renderMessage Examples.room
          (messages (fst (handleDeleteMessage_resume (lit "m2")
                            Samples.withReply)))
          Samples.reply)
     = None.
Proof.
  assert (H1 : In Samples.reply (messages Samples.withReply))
    by (do 3 right; left; reflexivity).
  assert (H3 : lit "m2" <> []) by discriminate.
  assert (H4 : id Samples.reply <> lit "m2") by discriminate.
  split; [repeat split; assumption|].
  exact (proj2 (proj2 (proj2
           (reply_outlives_parent Examples.room Samples.withReply
              Samples.reply Examples.m2 (lit "m2")
              H1 eq_refl H3 H4 eq_refl)))).
Defined.

Lemma merge_keeps_order_witness :
  (chronological Examples.shown
   /\ inOrder (INSERT Samples.reply) Examples.shown)
  /\ chronological (subscribeToMessages (INSERT Samples.reply) Examples.shown).
Proof.
  assert (H1 : chronological Examples.shown).
  { unfold chronological, ascending. simpl.
    repeat constructor; simpl; lia. }
  assert (H2 : inOrder (INSERT Samples.reply) Examples.shown).
  { intros x [<-|[<-|[<-|[]]]]; simpl; lia. }
  split; [split; assumption|].
  exact (merge_keeps_order (INSERT Samples.reply) Examples.shown H1 H2).
Defined.

Lemma late_insert_breaks_order_witness :
  (is_deleted Examples.m1 = false
   /\ In Examples.m3 (messages (setMessages [Examples.m3] initialState))
   /\ created_at Examples.m1 < created_at Examples.m3)
  /\ ~ chronological
         (subscribeToMessages (INSERT Examples.m1)
            (setMessages [Examples.m3] initialState)).
Proof.
  assert (H2 : In Examples.m3
                  (messages (setMessages [Examples.m3] initialState)))
    by (left; reflexivity).
  assert (H3 : created_at Examples.m1 < created_at Examples.m3)
    by (simpl; lia).
  split; [repeat split; assumption|].
  exact (proj2 (late_insert_breaks_order Examples.m1 Examples.m3
                  (setMessages [Examples.m3] initialState)
                  eq_refl H2 H3)).
Defined.

(* ------------------------------------------------------------------ *)
(** ** Read receipts on the sender's page *)

Section Receipts.

Lemma find_id_none (k : str) (us : list Message) :
  ~ In k (map id us) -> find (fun u => str_eqb k (id u)) us = None.
Proof.
  induction us as [|u us IH]; simpl; intros H; [reflexivity|].
  destruct (str_eqb k (id u)) eqn:E.
  - apply str_eqb_eq in E. exfalso. apply H. now left.
  - apply IH. intros Hin. apply H. now right.
Qed.

Lemma find_by_id (us : list Message) (r : Message) :
  NoDup (map id us) -> In r us ->
  find (fun u => str_eqb (id r) (id u)) us = Some r.
Proof.
  induction us as [|u us IH]; simpl; intros Hnd Hin; [contradiction|].
  inversion Hnd as [|? ? Hnot Hnd']; subst.
  destruct Hin as [->|Hin].
  - now rewrite str_eqb_refl.
  - destruct (str_eqb (id r) (id u)) eqn:E.
    + apply str_eqb_eq in E. exfalso. apply Hnot. rewrite <- E.
      now apply in_map.
    + now apply IH.
Qed.

Lemma NoDup_map_filter {A B} (g : A -> B) (f : A -> bool) (l : list A) :
  NoDup (map g l) -> NoDup (map g (filter f l)).
Proof.
  induction l as [|x l IH]; simpl; intros H; [constructor|].
  inversion H as [|? ? Hnot Hnd]; subst.
  destruct (f x); simpl; [|now apply IH].
  constructor; [|now apply IH].
  intros Hin. apply Hnot. apply in_map_iff in Hin as (y & Hy & Hyin).
  apply in_map_iff. exists y. split; [exact Hy|].
  now apply filter_In in Hyin.
Qed.

(** Several updates of distinct messages merged in a row: each entry of
    the page becomes the update of its identifier, if there is one. *)
Lemma merge_updates (us : list Message) :
  NoDup (map id us) ->
  forall st,
    messages (merge (map UPDATE us) st)
    = map (fun x => match find (fun u => str_eqb (id x) (id u)) us with
                    | Some u => u
                    | None => x
                    end) (messages st).
Proof.
  induction us as [|u us IH]; intros Hnd st.
  - simpl. symmetry. apply map_id.
  - inversion Hnd as [|? ? Hnot Hnd']; subst.
    unfold merge in *. simpl fold_left. rewrite (IH Hnd'). simpl.
    rewrite map_map. apply map_ext. intros x.
    destruct (str_eqb (id x) (id u)) eqn:E; [|reflexivity].
    now rewrite (find_id_none (id u) us Hnot).
Qed.

Lemma deliver_all (conv : str) (cs : list Change) :
  Forall (fun c => conversation_id (payload c) = conv) cs ->
  deliver conv cs = cs.
Proof.
  intros H. unfold deliver. apply filter_keeps_all.
  eapply Forall_impl; [|exact H]. intros c Hc. simpl in Hc.
  now apply str_eqb_eq.
Qed.

(** X16.  A read receipt reaches the sender.  When another participant
    enters the conversation, the bulk update of [markMessagesAsRead] comes
    back to the sender's page: the sender's unread message is replaced, at
    its position, by its record marked read, and its card shows the read
    mark. *)
Theorem read_receipt_reaches_sender (pa : Props) (reader : str)
    (now : Time) (fresh : str) (db : DB) (st : State) (i : nat)
    (x r : Message) :
  NoDup (map id (messagesT db)) ->
  In r (messagesT db) ->
  conversation_id r = conversationId pa ->
  sender_id r = user pa ->
  is_read r = false ->
  reader <> user pa ->
  nth_error (messages st) i = Some x ->
  id x = id r ->
  forall q,
    In q (markMessagesAsRead
            {| conversationId := conversationId pa; user := reader |}) ->
    let w := commit pa now fresh q (db, st) in
    nth_error (messages (snd w)) i = Some (setRead r)
    /\ readMark (renderMessage pa (messages (snd w)) (setRead r))
       = Some true.
Proof.
  intros Hnd Hin Hconv Hsender Hunread Hother Hx Hid q [<-|[]] w.
  split; [|simpl; rewrite Hsender, str_eqb_refl; reflexivity].
  subst w. unfold commit.
  cbn [fst snd exec updateMessages conversationId user].
  set (us := filter (unreadFromPeer (conversationId pa) reader)
                    (messagesT db)).
  assert (Hr : In r us).
  { apply filter_In. split; [exact Hin|]. unfold unreadFromPeer.
    rewrite Hconv, str_eqb_refl, Hunread. simpl.
    rewrite andb_true_r. apply negb_true_iff, str_eqb_neq.
    rewrite Hsender. now apply not_eq_sym. }
  rewrite deliver_all.
  - rewrite <- (map_map setRead UPDATE us).
    rewrite merge_updates.
    + rewrite nth_error_map, Hx. cbn [option_map]. rewrite Hid.
      assert (Hf : find (fun u => str_eqb (id (setRead r)) (id u))
                        (map setRead us) = Some (setRead r)).
      { apply find_by_id; [|now apply in_map].
        rewrite map_map. simpl. now apply NoDup_map_filter. }
      cbn [id setRead] in Hf. now rewrite Hf.
    + rewrite map_map. simpl. now apply NoDup_map_filter.
  - apply Forall_forall. intros c Hc.
    apply in_map_iff in Hc as (y & <- & Hy). simpl.
    apply filter_In in Hy as [_ Hy]. unfold unreadFromPeer in Hy.
    apply andb_true_iff in Hy as [Hy _]. apply andb_true_iff in Hy as [Hy _].
    now apply str_eqb_eq.
Qed.

End Receipts.

Lemma read_receipt_reaches_sender_witness :
  (NoDup (map id (messagesT Examples.db0))
   /\ In Examples.m1 (messagesT Examples.db0)
   /\ conversation_id Examples.m1 = conversationId Examples.room
   /\ sender_id Examples.m1 = user Examples.room
   /\ is_read Examples.m1 = false
   /\ Examples.bob <> user Examples.room
   /\ nth_error (messages Examples.shown) 0 = Some Examples.m1)
  /\ nth_error
       (messages (snd (commit Examples.room 50 []
                         (MarkRead (lit "c1") Examples.bob)
                         (Examples.db0, Examples.shown)))) 0
     = Some (setRead Examples.m1).
Proof.
  assert (H1 : NoDup (map id (messagesT Examples.db0))).
  { simpl. repeat constructor; simpl; intuition discriminate. }
  assert (H2 : In Examples.m1 (messagesT Examples.db0)) by (left; reflexivity).
  assert (H6 : Examples.bob <> user Examples.room) by discriminate.
  split; [repeat split; assumption|].
  exact (proj1 (read_receipt_reaches_sender Examples.room Examples.bob 50 []
                  Examples.db0 Examples.shown 0 Examples.m1 Examples.m1
                  H1 H2 eq_refl eq_refl eq_refl H6 eq_refl eq_refl
                  _ (or_introl eq_refl))).
Defined.

(* ================================================================== *)
(** * The conversation list, presence and the profile page *)

Section Directory.

Lemma sorted_rev {A} (R : A -> A -> Prop) (l : list A) :
  StronglySorted R l -> StronglySorted (fun a b => R b a) (rev l).
Proof.
  induction 1 as [|x l _ IH Hx]; simpl; [constructor|].
  apply sorted_snoc; [exact IH|]. now apply Forall_rev.
Qed.

Lemma selectConversations_In (u : str) (db : DB) (c : Conversation) :
  In c (ConversationsPage.selectConversations u db) <->
  In c (conversationsT db) /\ ConversationsPage.takesPart u c = true.
Proof.
  unfold ConversationsPage.selectConversations.
  rewrite <- in_rev, sortBy_In, filter_In. tauto.
Qed.

Lemma selectConversations_sorted (u : str) (db : DB) :
  StronglySorted ConversationsPage.descending
                 (ConversationsPage.selectConversations u db).
Proof.
  unfold ConversationsPage.selectConversations.
  apply (sorted_rev (ascending last_message_at)). apply sortBy_sorted.
Qed.

Lemma other_user_between (u : str) (c : Conversation) :
  ConversationsPage.takesPart u c = true ->
  between u (ConversationsPage.otherUserId
               (ConversationsPage.withOtherUser u c)) c = true.
Proof.
  unfold ConversationsPage.takesPart, between. simpl. intros H.
  destruct (str_eqb (participant1_id c) u) eqn:E1; simpl.
  - now rewrite str_eqb_refl.
  - simpl in H. rewrite H, str_eqb_refl. reflexivity.
Qed.

(** X17.  The conversation list as loaded: the loading flag is cleared;
    the list holds exactly the conversations the user takes part in, most
    recent message first; and the user shown for a conversation is the one
    on the other side, so that the lookup of [handleStartChat] for that user
    matches the conversation. *)
Theorem conversation_list_shape (u : str) (db : DB)
    (st : ConversationsPage.State) :
  ConversationsPage.isLoading (fst (ConversationsPage.loadList u db st))
  = false
  /\ StronglySorted ConversationsPage.descending
       (map ConversationsPage.conversation
            (ConversationsPage.conversations
               (fst (ConversationsPage.loadList u db st))))
  /\ (forall c,
        In c (conversationsT db) ->
        ConversationsPage.takesPart u c = true ->
        In (ConversationsPage.withOtherUser u c)
           (ConversationsPage.conversations
              (fst (ConversationsPage.loadList u db st))))
  /\ (forall l,
        In l (ConversationsPage.conversations
                (fst (ConversationsPage.loadList u db st))) ->
        l = ConversationsPage.withOtherUser u
              (ConversationsPage.conversation l)
        /\ ConversationsPage.takesPart u (ConversationsPage.conversation l)
           = true
        /\ In (ConversationsPage.conversation l)
              (findConversation u (ConversationsPage.otherUserId l) db)).
Proof.
  unfold ConversationsPage.loadList, ConversationsPage.fetchConversations_resume.
  simpl. split; [reflexivity|]. split; [|split].
  - rewrite map_map. simpl. rewrite map_id. apply selectConversations_sorted.
  - intros c Hc Ht. apply in_map. now apply selectConversations_In.
  - intros l Hl. apply in_map_iff in Hl as (c & <- & Hc).
    apply selectConversations_In in Hc as [Hc Ht].
    split; [reflexivity|]. split; [exact Ht|].
    apply filter_In. split; [exact Hc|]. now apply other_user_between.
Qed.

Lemma sorted_head_max (l : list Conversation) (h x : Conversation)
    (t : list Conversation) :
  StronglySorted ConversationsPage.descending l ->
  l = h :: t -> In x l ->
  (last_message_at x <= last_message_at h)%N.
Proof.
  intros Hs -> [->|Hx]; [lia|].
  inversion Hs as [|? ? _ Hh]; subst.
  rewrite Forall_forall in Hh. exact (Hh x Hx).
Qed.

(** X18.  A new message lifts its conversation to the top.  After an
    insert into a conversation the user takes part in, at a time later
    than every recorded last-message time, the user's conversation list
    starts with that conversation, stamped with the time of the insert. *)
Theorem new_message_lifts_conversation (u sender newContent mtype : str)
    (parent : option str) (now : Time) (fresh : str) (db : DB)
    (c0 : Conversation) (st : ConversationsPage.State) :
  In c0 (conversationsT db) ->
  ConversationsPage.takesPart u c0 = true ->
  (forall c, In c (conversationsT db) -> (last_message_at c < now)%N) ->
  exists top rest,
    ConversationsPage.conversations
      (fst (ConversationsPage.loadList u
              (fst (exec now fresh
                      (InsertMessage (conv_id c0) sender newContent mtype
                                     parent) db))
              st))
    = top :: rest
    /\ conv_id (ConversationsPage.conversation top) = conv_id c0
    /\ last_message_at (ConversationsPage.conversation top) = now.
Proof.
  intros Hc0 Hpart Hold.
  set (db' := fst (exec now fresh
                     (InsertMessage (conv_id c0) sender newContent mtype
                                    parent) db)).
  set (c0' := {| conv_id := conv_id c0;
                 participant1_id := participant1_id c0;
                 participant2_id := participant2_id c0;
                 last_message_at := now |}).
  assert (Hin : In c0' (ConversationsPage.selectConversations u db')).
  { apply selectConversations_In. split; [|exact Hpart].
    subst db'. simpl. unfold touchConversation.
    apply in_map_iff. exists c0. split; [|exact Hc0].
    now rewrite str_eqb_refl. }
  unfold ConversationsPage.loadList,
         ConversationsPage.fetchConversations_resume. simpl.
  destruct (ConversationsPage.selectConversations u db') as [|h t] eqn:El;
    [contradiction|].
  exists (ConversationsPage.withOtherUser u h),
         (map (ConversationsPage.withOtherUser u) t).
  split; [reflexivity|]. simpl.
  assert (Hmax : (now <= last_message_at h)%N).
  { pose proof (selectConversations_sorted u db') as Hs.
    exact (sorted_head_max _ h c0' t Hs El (eq_ind_r (fun l => In c0' l)
                                              Hin El)). }
  assert (Hh : In h (conversationsT db')).
  { assert (Hh' : In h (ConversationsPage.selectConversations u db'))
      by (rewrite El; now left).
    now apply selectConversations_In in Hh'. }
  subst db'. simpl in Hh. unfold touchConversation in Hh.
  apply in_map_iff in Hh as (r & Hr & Hrin).
  destruct (str_eqb (conv_id r) (conv_id c0)) eqn:E.
  - subst h. simpl. split; [now apply str_eqb_eq | reflexivity].
  - subst h. specialize (Hold r Hrin). lia.
Qed.

(** X19.  Who is shown online.  A profile is shown online exactly when
    it is not the current user's and some presence of the channel carries
    its identifier; the current user never appears among the online
    users. *)
Theorem presence_online_iff (me : str) (state : Presence.PresenceState)
    (profile : Presence.Profile) :
  (Presence.isOnline (Presence.sync me state) profile = true <->
   Presence.profile_id profile <> me
   /\ exists entry pr,
        In entry state /\ In pr (snd entry)
        /\ Presence.user_id pr = Presence.profile_id profile)
  /\ Forall (fun v => Presence.profile_id v <> me) (Presence.sync me state).
Proof.
  assert (Hin : forall v, In v (Presence.sync me state) <->
            exists entry pr, In entry state /\ In pr (snd entry)
              /\ Presence.user_id pr <> me
              /\ v = {| Presence.profile_id := Presence.user_id pr;
                        Presence.email := Presence.tracked_email pr |}).
  { intros v. unfold Presence.sync. rewrite in_flat_map. split.
    - intros (entry & He & Hv). apply in_map_iff in Hv as (pr & <- & Hpr).
      apply filter_In in Hpr as [Hpr Hne].
      exists entry, pr. repeat split; try assumption.
      now apply negb_true_iff, str_eqb_neq in Hne.
    - intros (entry & pr & He & Hpr & Hne & ->).
      exists entry. split; [exact He|]. apply in_map_iff.
      exists pr. split; [reflexivity|]. apply filter_In.
      split; [exact Hpr|]. now apply negb_true_iff, str_eqb_neq. }
  split.
  - unfold Presence.isOnline. rewrite existsb_exists. split.
    + intros (v & Hv & Heq). apply str_eqb_eq in Heq.
      apply Hin in Hv as (entry & pr & He & Hpr & Hne & ->). simpl in Heq.
      split; [now rewrite <- Heq|]. now exists entry, pr.
    + intros (Hne & entry & pr & He & Hpr & Hid).
      exists {| Presence.profile_id := Presence.user_id pr;
                Presence.email := Presence.tracked_email pr |}.
      split; [|simpl; now apply str_eqb_eq].
      apply Hin. exists entry, pr. repeat split; try assumption.
      now rewrite Hid.
  - apply Forall_forall. intros v Hv.
    apply Hin in Hv as (entry & pr & _ & _ & Hne & ->). exact Hne.
Qed.

End Directory.

Section ProfileName.

Lemma trimStart_head (s : str) (c : N) (rest : str) :
  trimStart s = c :: rest -> isWhiteSpace c = false.
Proof.
  induction s as [|x s IH]; simpl; [discriminate|].
  destruct (isWhiteSpace x) eqn:E; [exact IH|].
  intros H; inversion H; subst. exact E.
Qed.

Lemma trimStart_fixed (s : str) :
  (forall c rest, s = c :: rest -> isWhiteSpace c = false) ->
  trimStart s = s.
Proof.
  destruct s as [|c rest]; intros H; [reflexivity|].
  simpl. now rewrite (H c rest eq_refl).
Qed.

Lemma trimStart_snoc (l : str) (c : N) :
  isWhiteSpace c = false -> trimStart (l ++ [c]) = trimStart l ++ [c].
Proof.
  intros Hc. induction l as [|x l IH]; simpl; [now rewrite Hc|].
  destruct (isWhiteSpace x); [exact IH | reflexivity].
Qed.

Lemma trimEnd_cons (c : N) (rest : str) :
  isWhiteSpace c = false -> trimEnd (c :: rest) = c :: trimEnd rest.
Proof.
  intros Hc. unfold trimEnd. simpl.
  now rewrite (trimStart_snoc _ c Hc), rev_app_distr.
Qed.

Lemma trim_head (s : str) (c : N) (rest : str) :
  trim s = c :: rest -> isWhiteSpace c = false.
Proof.
  unfold trim. destruct (trimStart s) as [|x t] eqn:E; [discriminate|].
  pose proof (trimStart_head s x t E) as Hx.
  rewrite (trimEnd_cons x t Hx). intros H; inversion H; subst. exact Hx.
Qed.

Lemma trim_last (s : str) (front : str) (c : N) :
  trim s = front ++ [c] -> isWhiteSpace c = false.
Proof.
  unfold trim, trimEnd. intros H.
  apply (f_equal (@rev N)) in H.
  rewrite rev_involutive, rev_app_distr in H. simpl in H.
  exact (trimStart_head _ _ _ H).
Qed.

Lemma trim_trim (s : str) : trim (trim s) = trim s.
Proof.
  assert (Hstart : trimStart (trim s) = trim s)
    by (apply trimStart_fixed; intros c rest; apply trim_head).
  unfold trim at 1. rewrite Hstart. unfold trimEnd at 1.
  assert (Hend : trimStart (rev (trim s)) = rev (trim s)).
  { apply trimStart_fixed. intros c rest Hr.
    apply (trim_last s (rev rest) c).
    rewrite <- (rev_involutive (trim s)), Hr. reflexivity. }
  now rewrite Hend, rev_involutive.
Qed.

(** X20.  Saving a display name, unlike sending a message, stores the
    trimmed text.  A blank name is refused with a validation notice, no
    request and no change of state; otherwise the one request that leaves
    updates the user's own profile with a name that is not empty, has no
    whitespace at either end, and is the trimmed input. *)
Theorem handleSaveProfile_trims (u : str) (st : ProfilePage.State) :
  (trim (ProfilePage.displayName st) = [] ->
     ProfilePage.handleSaveProfile u st
     = (st, ProfilePage.validationFailed, None))
  /\ (trim (ProfilePage.displayName st) <> [] ->
        exists name,
          snd (ProfilePage.handleSaveProfile u st)
          = Some [ProfilePage.UpdateDisplayName u name]
          /\ name = trim (ProfilePage.displayName st)
          /\ name <> []
          /\ trim name = name
          /\ (forall c rest, name = c :: rest -> isWhiteSpace c = false)
          /\ (forall front c, name = front ++ [c] ->
                              isWhiteSpace c = false)).
Proof.
  unfold ProfilePage.handleSaveProfile. split.
  - intros ->. reflexivity.
  - intros Hname. exists (trim (ProfilePage.displayName st)).
    assert (Ht : truthy_str (trim (ProfilePage.displayName st)) = true).
    { destruct (trim (ProfilePage.displayName st));
        [exfalso; now apply Hname | reflexivity]. }
    rewrite Ht. simpl. split; [reflexivity|]. split; [reflexivity|].
    split; [exact Hname|]. split; [apply trim_trim|]. split.
    + intros c rest. apply trim_head.
    + intros front c. apply trim_last.
Qed.

End ProfileName.

Lemma new_message_lifts_conversation_witness :
  (In {| conv_id := lit "c1"; participant1_id := Examples.alice;
         participant2_id := Examples.bob; last_message_at := 30 |}
      (conversationsT Samples.threeUsers)
   /\ ConversationsPage.takesPart Examples.alice
        {| conv_id := lit "c1"; participant1_id := Examples.alice;
           participant2_id := Examples.bob; last_message_at := 30 |} = true
   /\ (forall c, In c (conversationsT Samples.threeUsers) ->
                 last_message_at c < 40))
  /\ exists top rest,
       ConversationsPage.conversations
         (fst (ConversationsPage.loadList Examples.alice
                 (fst (exec 40 (lit "m9")
                         (InsertMessage (lit "c1") Examples.bob (lit "yo")
                                        (lit "text") None)
                         Samples.threeUsers))
                 ConversationsPage.initialState))
       = top :: rest
       /\ conv_id (ConversationsPage.conversation top) = lit "c1"
       /\ last_message_at (ConversationsPage.conversation top) = 40.
Proof.
  assert (H1 : In {| conv_id := lit "c1"; participant1_id := Examples.alice;
                     participant2_id := Examples.bob;
                     last_message_at := 30 |}
                  (conversationsT Samples.threeUsers))
    by (left; reflexivity).
  assert (H3 : forall c, In c (conversationsT Samples.threeUsers) ->
                         last_message_at c < 40).
  { intros c [<-|[<-|[]]]; simpl; lia. }
  split; [repeat split; assumption|].
  exact (new_message_lifts_conversation Examples.alice Examples.bob
           (lit "yo") (lit "text") None 40 (lit "m9") Samples.threeUsers
           _ ConversationsPage.initialState H1 eq_refl H3).
Defined.

(** Before the message Carol's conversation leads Alice's list, after it
    Bob's does. *)
Example list_reordered :
  map (fun l => conv_id (ConversationsPage.conversation l))
      (ConversationsPage.conversations
         (fst (ConversationsPage.loadList Examples.alice Samples.threeUsers
                 ConversationsPage.initialState)))
  = [lit "c9"; lit "c1"]
  /\ map (fun l => (conv_id (ConversationsPage.conversation l),
                    ConversationsPage.otherUserId l))
         (ConversationsPage.conversations
            (fst (ConversationsPage.loadList Examples.alice
                    (fst (exec 40 (lit "m9")
                            (InsertMessage (lit "c1") Examples.bob (lit "yo")
                                           (lit "text") None)
                            Samples.threeUsers))
                    ConversationsPage.initialState)))
     = [(lit "c1", Examples.bob); (lit "c9", Samples.carol)].
Proof. split; reflexivity. Qed.

Example only_bob_online :
  Presence.sync Examples.alice Samples.online
  = [{| Presence.profile_id := Examples.bob;
        Presence.email := lit "bob@x" |}].
Proof. reflexivity. Qed.

(* ------------------------------------------------------------------ *)
(** ** No deduplication on insert; starting a chat twice *)

Section Repeats.

(** X21.  The merge does not deduplicate.  An insert notification for a
    live message the page already holds, as when the initial load returned
    the row before its notification arrived, is appended all the same, so
    the identifier then occurs twice in the sequence. *)
Theorem repeated_insert_duplicates (n x : Message) (st : State) :
  is_deleted n = false ->
  In x (messages st) ->
  id x = id n ->
  messages (subscribeToMessages (INSERT n) st) = messages st ++ [n]
  /\ ~ NoDup (map id (messages (subscribeToMessages (INSERT n) st))).
Proof.
  intros Hlive Hin Hid.
  assert (Hm : messages (subscribeToMessages (INSERT n) st)
               = messages st ++ [n]).
  { simpl. unfold onInsert. now rewrite Hlive. }
  split; [exact Hm|]. rewrite Hm, map_app. simpl. intros Hnd.
  apply NoDup_remove_2 in Hnd. apply Hnd. rewrite app_nil_r.
  rewrite <- Hid. now apply in_map.
Qed.

(** X22.  Starting a chat is repeatable when nothing races.  After a
    first start has created the conversation of two users who had none,
    a later start between the two, from either side, finds that
    conversation, opens it and inserts nothing. *)
Theorem startChat_twice_reuses (now1 now2 : Time) (fresh1 fresh2 : str)
    (u other : str) (db : DB) :
  findConversation u other db = [] ->
  let db1 := fst (fst (OnlineUsers.startChat now1 fresh1 u other db)) in
  OnlineUsers.startChat now2 fresh2 u other db1
  = (db1, [FindConversation u other], OnlineUsers.Navigate fresh1)
  /\ OnlineUsers.startChat now2 fresh2 other u db1
     = (db1, [FindConversation other u], OnlineUsers.Navigate fresh1).
Proof.
  intros Hnone db1.
  set (c := {| conv_id := fresh1; participant1_id := u;
               participant2_id := other; last_message_at := now1 |}).
  assert (Hfound : findConversation u other db1 = [c]).
  { subst db1. unfold OnlineUsers.startChat. rewrite Hnone. simpl.
    unfold findConversation in *. simpl. rewrite filter_app, Hnone. simpl.
    unfold between. simpl. now rewrite !str_eqb_refl. }
  assert (Hfound' : findConversation other u db1 = [c]).
  { rewrite <- Hfound. unfold findConversation.
    apply filter_ext. intros a. apply between_sym. }
  split.
  - exact (startChat_reuses_the_single now2 fresh2 u other db1 c Hfound).
  - exact (startChat_reuses_the_single now2 fresh2 other u db1 c Hfound').
Qed.

End Repeats.

Lemma repeated_insert_duplicates_witness :
  (is_deleted Examples.m2 = false
   /\ In Examples.m2 (messages Examples.shown)
   /\ id Examples.m2 = id Examples.m2)
  /\ ~ NoDup (map id (messages
                        (subscribeToMessages (INSERT Examples.m2)
                           Examples.shown))).
Proof.
  assert (H2 : In Examples.m2 (messages Examples.shown))
    by (right; left; reflexivity).
  split; [repeat split; assumption|].
  exact (proj2 (repeated_insert_duplicates Examples.m2 Examples.m2
                  Examples.shown eq_refl H2 eq_refl)).
Defined.

Lemma startChat_twice_reuses_witness :
  findConversation Examples.alice Samples.carol Examples.db0 = []
  /\ OnlineUsers.startChat 60 (lit "c8") Samples.carol Examples.alice
       (fst (fst (OnlineUsers.startChat 50 (lit "c7") Examples.alice
                    Samples.carol Examples.db0)))
     = (fst (fst (OnlineUsers.startChat 50 (lit "c7") Examples.alice
                    Samples.carol Examples.db0)),
        [FindConversation Samples.carol Examples.alice],
        OnlineUsers.Navigate (lit "c7")).
Proof.
  split; [reflexivity|].
  exact (proj2 (startChat_twice_reuses 50 60 (lit "c7") (lit "c8")
                  Examples.alice Samples.carol Examples.db0 eq_refl)).
Defined.
